(** * Car ticket booking API: a shallow embedding of [index.js]

    The Express application of [index.js] is embedded handler by handler.
    Every route is a function from the database state and the request to a
    response and the next database state.  The three external collaborators
    (PostgreSQL behind [pool.query], [jsonwebtoken], [bcryptjs]) appear as
    interfaces; what the schema at the end of the source fixes (SERIAL keys,
    the UNIQUE e-mail, the two REFERENCES) is written out. *)

From stdpp Require Import gmap strings list.
From Stdlib Require Import ZArith Ascii String DecimalString Lia Sorted Permutation.

Set Warnings "-register-all".

Local Open Scope string_scope.
Local Open Scope Z_scope.

(** ** JavaScript values as they arrive in a parsed JSON body *)

(** Integral numbers are [JNum]; a number with a fractional part is
    [JFloat], carried by the text [Number.prototype.toString] gives for it
    (it is never zero, hence always truthy). *)
Inductive jsval : Type :=
  | JUndefined
  | JNull
  | JBool (b : bool)
  | JNum (n : Z)
  | JFloat (repr : string)
  | JStr (s : string)
  | JObj (fields : list (string * jsval))
  | JArr (items : list jsval).

(** [!v] is [negb (truthy v)]. *)
Definition truthy (v : jsval) : bool :=
  match v with
  | JUndefined | JNull => false
  | JBool b => b
  | JNum n => negb (n =? 0)
  | JFloat _ => true
  | JStr s => negb (String.eqb s "")
  | JObj _ | JArr _ => true
  end.

(** [req.body] after [express.json()]: an object; a field that is absent
    reads as [undefined]. *)
Definition field (body : gmap string jsval) (k : string) : jsval :=
  default JUndefined (body !! k).

(** ** Responses *)

Record numeric_dec := { unscaled : Z; scale : nat }.

(** A value of a NUMERIC column. *)
Inductive numeric : Type :=
  | Dec (d : numeric_dec)
  | NaN
  | Infinity (negative : bool).

Definition numeric_of_Z (n : Z) : numeric := Dec {| unscaled := n; scale := 0 |}.

Definition numeric_is_zero (x : numeric) : bool :=
  match x with
  | Dec d => unscaled d =? 0
  | _ => false
  end.

(** Rows of the three tables.  Only the SERIAL PRIMARY KEY columns are NOT
    NULL; every other column is nullable, [None] is SQL NULL. *)
Record user := {
  u_id : Z;
  u_name : option string;
  u_email : option string;
  u_password : option string
}.

Record car := {
  c_id : Z;
  c_name : option string;
  c_details : option string;
  c_price : option numeric
}.

Record booking := {
  b_id : Z;
  b_user_id : option Z;
  b_car_id : option Z;
  b_travel_date : option Z
}.

(** A row of the SELECT of [GET /bookings]. *)
Record booking_row := {
  br_id : Z;
  br_travel_date : option Z;
  br_car_name : option string;
  br_car_details : option string;
  br_car_price : option numeric
}.

(** A row of the SELECT of [GET /bookings/:id]. *)
Record booking_detail := {
  bd_row : booking_row;
  bd_user_name : option string;
  bd_user_email : option string
}.

(** The JSON documents the handlers send. *)
Inductive json : Type :=
  | ErrorBody (error : string)
  | MessageBody (message : string)
  | TokenBody (token : string)
  | CarsBody (cars : list car)
  | CarBody (c : car)
  | BookingsBody (bookings : list booking_row)
  | BookingBody (b : booking_detail).

Record response := { status : Z; body : json }.

(** [res.status(c).json(b)]; [res.json(b)] alone answers 200. *)
Definition res_status (c : Z) (b : json) : response := {| status := c; body := b |}.
Definition res_json (b : json) : response := res_status 200 b.

(** ** The Authorization header *)

(** [s.split(c)] for a one-character separator. *)
Fixpoint split (c : ascii) (s : string) : list string :=
  match s with
  | EmptyString => [EmptyString]
  | String a rest =>
      if Ascii.eqb a c then EmptyString :: split c rest
      else match split c rest with
           | [] => [String a EmptyString]
           | w :: ws => String a w :: ws
           end
  end.

(** [authHeader && authHeader.split(' ')[1]]: [None] is [undefined]. *)
Definition bearer_token (authHeader : option string) : option string :=
  match authHeader with
  | None => None
  | Some h => if String.eqb h "" then Some "" else split " " h !! 1%nat
  end.

(** [!token]. *)
Definition token_missing (token : option string) : bool :=
  match token with
  | None => true
  | Some t => String.eqb t ""
  end.

(** ** Query results *)

(** What [await pool.query(...)] or another awaited library call does: it
    resolves to a value, or rejects and control goes to the [catch]. *)
Inductive outcome (A : Type) : Type :=
  | Resolves (a : A)
  | Rejects.
Arguments Resolves {A} a.
Arguments Rejects {A}.

#[global] Instance outcome_bind : MBind outcome := fun A B k x =>
  match x with
  | Resolves a => k a
  | Rejects => Rejects
  end.

(** ** PostgreSQL *)

(** The text-to-value input functions of the server and the text the driver
    gives to values that are neither strings nor booleans are outside the
    source; they are the members of this interface.  [None] is the server's
    "invalid input syntax" (or out of range) error.  A DATE is identified
    with an integer by [date_in]. *)
Class PgInput := {
  number_text : Z -> string;
  json_text : list (string * jsval) -> string;
  array_text : list jsval -> string;
  int4in : string -> option Z;
  numeric_in : string -> option numeric;
  date_in : string -> option Z
}.

Definition int4_min : Z := -2147483648.
Definition int4_max : Z := 2147483647.
Definition in_int4 (n : Z) : bool := (int4_min <=? n) && (n <=? int4_max).

Definition of_option {A} (o : option A) : outcome A :=
  match o with
  | Some a => Resolves a
  | None => Rejects
  end.

Fixpoint all_spaces (s : string) : bool :=
  match s with
  | EmptyString => true
  | String a rest => Ascii.eqb a " "%char && all_spaces rest
  end.

Fixpoint take_chars (n : nat) (s : string) : string :=
  match n, s with
  | S n', String a rest => String a (take_chars n' rest)
  | _, _ => EmptyString
  end.

Fixpoint drop_chars (n : nat) (s : string) : string :=
  match n, s with
  | S n', String _ rest => drop_chars n' rest
  | _, _ => s
  end.

(** Assignment to a VARCHAR(n) column: a longer string is an error unless the
    excess is all spaces, which are cut.  The length is that of the string
    of the model, one element a character; it is the server's count of
    characters for ASCII text. *)
Definition varchar_assign (n : nat) (s : string) : outcome string :=
  if (String.length s <=? n)%nat then Resolves s
  else if all_spaces (drop_chars n s) then Resolves (take_chars n s)
  else Rejects.

Section Postgres.
Context `{PgInput}.

(** The driver's text for a query parameter; [None] is NULL. *)
Definition prepareValue (v : jsval) : option string :=
  match v with
  | JUndefined | JNull => None
  | JBool b => Some (if b then "true" else "false")
  | JNum n => Some (number_text n)
  | JFloat repr => Some repr
  | JStr s => Some s
  | JObj o => Some (json_text o)
  | JArr a => Some (array_text a)
  end.

(** A parameter compared with or stored in an INTEGER column.  The text of
    an integral number is its decimal writing, which the server reads back
    when it fits 32 bits; the text of a boolean, a fraction, an object or
    an array is no integer. *)
Definition pg_int4 (v : jsval) : outcome (option Z) :=
  match v with
  | JUndefined | JNull => Resolves None
  | JNum n => if in_int4 n then Resolves (Some n) else Rejects
  | JStr s => n ← of_option (int4in s); Resolves (Some n)
  | JBool _ | JFloat _ | JObj _ | JArr _ => Rejects
  end.

(** A parameter stored in a NUMERIC column. *)
Definition pg_numeric (v : jsval) : outcome (option numeric) :=
  match v with
  | JUndefined | JNull => Resolves None
  | JNum n => Resolves (Some (numeric_of_Z n))
  | JBool _ => Rejects
  | _ => match prepareValue v with
         | Some s => x ← of_option (numeric_in s); Resolves (Some x)
         | None => Resolves None
         end
  end.

(** A parameter stored in a DATE column. *)
Definition pg_date (v : jsval) : outcome (option Z) :=
  match prepareValue v with
  | None => Resolves None
  | Some s => d ← of_option (date_in s); Resolves (Some d)
  end.

(** A parameter stored in a VARCHAR(100) column. *)
Definition pg_varchar100 (v : jsval) : outcome (option string) :=
  match prepareValue v with
  | None => Resolves None
  | Some s => s' ← varchar_assign 100 s; Resolves (Some s')
  end.
End Postgres.

(** The database: the three tables in insertion order and the last value
    each SERIAL sequence has handed out. *)
Record db := {
  users : list user;
  cars : list car;
  bookings : list booking;
  users_id_seq : Z;
  cars_id_seq : Z;
  bookings_id_seq : Z
}.

Definition empty_db : db :=
  {| users := []; cars := []; bookings := [];
     users_id_seq := 0; cars_id_seq := 0; bookings_id_seq := 0 |}.

(** [nextval]: the next value of a 32-bit sequence, an error once it is
    exhausted. *)
Definition nextval (last : Z) : outcome Z :=
  if last <? int4_max then Resolves (last + 1) else Rejects.

Definition opt_eqb {A} (eqb : A -> A -> bool) (x : option A) (y : A) : bool :=
  match x with
  | Some a => eqb a y
  | None => false
  end.

Definition has_user (st : db) (k : Z) : bool := existsb (fun u => u_id u =? k) (users st).
Definition has_car (st : db) (k : Z) : bool := existsb (fun c => c_id c =? k) (cars st).
Definition has_booking (st : db) (k : Z) : bool := existsb (fun b => b_id b =? k) (bookings st).

(** A REFERENCES column holds NULL or the key of a row of the other table. *)
Definition references (has : Z -> bool) (fk : option Z) : bool :=
  match fk with
  | None => true
  | Some k => has k
  end.

(** UNIQUE on a nullable column: NULLs never collide. *)
Definition email_taken (st : db) (e : option string) : bool :=
  match e with
  | None => false
  | Some s => existsb (fun u => opt_eqb String.eqb (u_email u) s) (users st)
  end.

(** ** The SQL statements of the source, one function each *)

Definition set_users (st : db) (seq : Z) (rows : list user) : db :=
  {| users := rows; cars := cars st; bookings := bookings st;
     users_id_seq := seq; cars_id_seq := cars_id_seq st;
     bookings_id_seq := bookings_id_seq st |}.

Definition set_cars (st : db) (seq : Z) (rows : list car) : db :=
  {| users := users st; cars := rows; bookings := bookings st;
     users_id_seq := users_id_seq st; cars_id_seq := seq;
     bookings_id_seq := bookings_id_seq st |}.

Definition set_bookings (st : db) (seq : Z) (rows : list booking) : db :=
  {| users := users st; cars := cars st; bookings := rows;
     users_id_seq := users_id_seq st; cars_id_seq := cars_id_seq st;
     bookings_id_seq := seq |}.

(** Insertion of [x] into a list sorted by [le] on its keys. *)
Fixpoint insert_by {A} (key : A -> Z) (le : Z -> Z -> bool) (x : A) (l : list A) : list A :=
  match l with
  | [] => [x]
  | y :: l' => if le (key x) (key y) then x :: l else y :: insert_by key le x l'
  end.

(** ORDER BY on an integer column. *)
Definition order_by {A} (key : A -> Z) (le : Z -> Z -> bool) (l : list A) : list A :=
  foldr (insert_by key le) [] l.

Section Queries.
Context `{PgInput}.

(** [INSERT INTO users(name, email, password) VALUES($1, $2, $3)].  A
    value that does not fit its column fails the statement before a key is
    drawn.  The key comes from the sequence, which keeps the value it
    handed out when a later check (PRIMARY KEY, UNIQUE) makes the statement
    fail. *)
Definition insert_user (st : db) (name email password : jsval) : outcome unit * db :=
  match (n ← pg_varchar100 name; e ← pg_varchar100 email; Resolves (n, e)) with
  | Rejects => (Rejects, st)
  | Resolves (n, e) =>
      match nextval (users_id_seq st) with
      | Rejects => (Rejects, st)
      | Resolves k =>
          let st1 := set_users st k (users st) in
          if has_user st k || email_taken st e then (Rejects, st1)
          else (Resolves tt,
                set_users st k
                  (users st ++ [{| u_id := k; u_name := n; u_email := e;
                                   u_password := prepareValue password |}]))
      end
  end.

(** [SELECT * FROM users WHERE email = $1]. *)
Definition select_user_by_email (st : db) (email : jsval) : outcome (list user) :=
  match prepareValue email with
  | None => Resolves []
  | Some s => Resolves (List.filter (fun u => opt_eqb String.eqb (u_email u) s) (users st))
  end.

(** [SELECT * FROM cars ORDER BY id]. *)
Definition select_cars (st : db) : outcome (list car) :=
  Resolves (order_by c_id Z.leb (cars st)).

(** [SELECT * FROM cars WHERE id = $1]. *)
Definition select_car_by_id (st : db) (id : jsval) : outcome (list car) :=
  k ← pg_int4 id;
  match k with
  | None => Resolves []
  | Some k => Resolves (List.filter (fun c => c_id c =? k) (cars st))
  end.

(** [INSERT INTO cars(name, details, price) VALUES($1, $2, $3)].  As for
    users, a price the server cannot read or a name that does not fit fails
    the statement before a key is drawn. *)
Definition insert_car (st : db) (name details price : jsval) : outcome unit * db :=
  match (p ← pg_numeric price; n ← pg_varchar100 name; Resolves (p, n)) with
  | Rejects => (Rejects, st)
  | Resolves (p, n) =>
      match nextval (cars_id_seq st) with
      | Rejects => (Rejects, st)
      | Resolves k =>
          let st1 := set_cars st k (cars st) in
          if has_car st k then (Rejects, st1)
          else (Resolves tt,
                set_cars st k
                  (cars st ++ [{| c_id := k; c_name := n;
                                  c_details := prepareValue details;
                                  c_price := p |}]))
      end
  end.

(** [FROM bookings b JOIN cars c ON b.car_id = c.id]: the selected columns
    of the pairs that join. *)
Definition join_car (st : db) (b : booking) : list booking_row :=
  List.map (fun c => {| br_id := b_id b; br_travel_date := b_travel_date b;
                        br_car_name := c_name c; br_car_details := c_details c;
                        br_car_price := c_price c |})
           (List.filter (fun c => opt_eqb Z.eqb (b_car_id b) (c_id c)) (cars st)).

(** [... JOIN users u ON b.user_id = u.id]. *)
Definition join_user (st : db) (b : booking) (r : booking_row) : list booking_detail :=
  List.map (fun u => {| bd_row := r; bd_user_name := u_name u;
                        bd_user_email := u_email u |})
           (List.filter (fun u => opt_eqb Z.eqb (b_user_id b) (u_id u)) (users st)).

(** The SELECT of [GET /bookings]:
    [... WHERE b.user_id = $1 ORDER BY b.id DESC]. *)
Definition select_bookings_of (st : db) (user_id : jsval) : outcome (list booking_row) :=
  uid ← pg_int4 user_id;
  match uid with
  | None => Resolves []
  | Some uid =>
      Resolves (order_by br_id Z.geb
                  (flat_map (join_car st)
                     (List.filter (fun b => opt_eqb Z.eqb (b_user_id b) uid)
                                  (bookings st))))
  end.

(** The SELECT of [GET /bookings/:id]:
    [... WHERE b.id = $1 AND b.user_id = $2]. *)
Definition select_booking (st : db) (id user_id : jsval) : outcome (list booking_detail) :=
  k ← pg_int4 id;
  uid ← pg_int4 user_id;
  match k, uid with
  | Some k, Some uid =>
      Resolves (flat_map (fun b => flat_map (join_user st b) (join_car st b))
                  (List.filter (fun b => (b_id b =? k) && opt_eqb Z.eqb (b_user_id b) uid)
                               (bookings st)))
  | _, _ => Resolves []
  end.

(** [INSERT INTO bookings(user_id, car_id, travel_date) VALUES($1, $2, $3)]. *)
Definition insert_booking (st : db) (user_id car_id travel_date : jsval)
  : outcome unit * db :=
  match (u ← pg_int4 user_id; c ← pg_int4 car_id; d ← pg_date travel_date;
         Resolves (u, c, d)) with
  | Rejects => (Rejects, st)
  | Resolves (u, c, d) =>
      match nextval (bookings_id_seq st) with
      | Rejects => (Rejects, st)
      | Resolves k =>
          let st1 := set_bookings st k (bookings st) in
          if has_booking st k
             || negb (references (has_user st) u)
             || negb (references (has_car st) c)
          then (Rejects, st1)
          else (Resolves tt,
                set_bookings st k
                  (bookings st ++ [{| b_id := k; b_user_id := u; b_car_id := c;
                                      b_travel_date := d |}]))
      end
  end.
End Queries.

(** ** Session tokens *)

(** The claim set of a token: the payload [{ id, email }] signed at login
    with the two registered claims [iat] and [exp], in seconds. *)
Record claims := {
  jwt_id : Z;
  jwt_email : option string;
  iat : Z;
  exp : Z
}.

Record jws := { payload : claims; signature : string }.

(** The keyed signature over a claim set and the compact serialization of a
    signed token with its parser ([None]: not a well-formed token). *)
Class Jose := {
  hmac : string -> claims -> string;
  compact : jws -> string;
  parse_compact : string -> option jws
}.

Inductive verify_error : Type :=
  | Malformed
  | BadSignature
  | Expired.

Definition expires_in_1h : Z := 3600.

Section Jwt.
Context `{Jose}.

(** Modelled from the spec: [jwt.sign] of the jsonwebtoken package, which is
    not part of the source.  [issue(user_id, email)] embeds the claims and
    an expiry exactly one hour after issuance and signs them with the
    server-held secret.  [now] is the clock, in seconds. *)
Definition jwt_sign (id : Z) (email : option string) (secret : string) (now : Z) : string :=
  let c := {| jwt_id := id; jwt_email := email; iat := now; exp := now + expires_in_1h |} in
  compact {| payload := c; signature := hmac secret c |}.

(** Modelled from the spec: [jwt.verify] of the jsonwebtoken package, which
    is not part of the source.  [verify(token)] gives the claims or one of
    the errors Malformed, BadSignature, Expired; it checks the signature
    and the expiry, and a token is expired from its expiry instant on. *)
Definition jwt_verify (token secret : string) (now : Z) : verify_error + claims :=
  match parse_compact token with
  | None => inl Malformed
  | Some t =>
      if negb (String.eqb (signature t) (hmac secret (payload t))) then inl BadSignature
      else if exp (payload t) <=? now then inl Expired
      else inr (payload t)
  end.
End Jwt.

(** ** Password hashing *)

(** [bcrypt.hash(s, rounds)] draws a salt, here the argument [salt]; both
    calls reject on arguments they do not accept. *)
Class Bcrypt := {
  bcrypt_hash : jsval -> Z -> string -> outcome string;
  bcrypt_compare : jsval -> option string -> outcome bool
}.

(** ** Requests *)

Record request := {
  authorization : option string;
  params_id : string;
  req_body : gmap string jsval
}.

(** ** The application *)

Section App.
Context `{PgInput} `{Jose} `{Bcrypt}.

(** [process.env.JWT_SECRET]. *)
Variable JWT_SECRET : string.

(** The middleware: the response it sends itself, or the claims it puts in
    [req.user] before calling [next()]. *)
Definition authenticateToken (now : Z) (req : request) : response + claims :=
  let token := bearer_token (authorization req) in
  if token_missing token then inl (res_status 401 (ErrorBody "Token missing"))
  else
    match jwt_verify (default "" token) JWT_SECRET now with
    | inl err => inl (res_status 403 (ErrorBody "Invalid or expired token"))
    | inr user => inr user
    end.

(** A route registered as [app.METHOD(path, authenticateToken, handler)]. *)
Definition protected (handler : claims -> request -> db -> response * db)
    (now : Z) (req : request) (st : db) : response * db :=
  match authenticateToken now req with
  | inl res => (res, st)
  | inr user => handler user req st
  end.

(** [app.post('/register', ...)] *)
Definition post_register (salt : string) (req : request) (st : db) : response * db :=
  let name := field (req_body req) "name" in
  let email := field (req_body req) "email" in
  let password := field (req_body req) "password" in
  if negb (truthy name) || negb (truthy email) || negb (truthy password) then
    (res_status 400 (ErrorBody "Name, email and password are required"), st)
  else
    match bcrypt_hash password 10 salt with
    | Rejects => (res_status 500 (ErrorBody "Server error during registration"), st)
    | Resolves hashedPassword =>
        match insert_user st name email (JStr hashedPassword) with
        | (Rejects, st') =>
            (res_status 500 (ErrorBody "Server error during registration"), st')
        | (Resolves _, st') =>
            (res_status 201 (MessageBody "User registered successfully"), st')
        end
    end.

(** [app.post('/login', ...)] *)
Definition post_login (now : Z) (req : request) (st : db) : response * db :=
  let email := field (req_body req) "email" in
  let password := field (req_body req) "password" in
  if negb (truthy email) || negb (truthy password) then
    (res_status 400 (ErrorBody "Email and password are required"), st)
  else
    match select_user_by_email st email with
    | Rejects => (res_status 500 (ErrorBody "Server error during login"), st)
    | Resolves rows =>
        match rows !! 0%nat with
        | None => (res_status 403 (ErrorBody "Invalid credentials"), st)
        | Some user =>
            match bcrypt_compare password (u_password user) with
            | Rejects => (res_status 500 (ErrorBody "Server error during login"), st)
            | Resolves validPassword =>
                if negb validPassword then
                  (res_status 403 (ErrorBody "Invalid credentials"), st)
                else
                  let token := jwt_sign (u_id user) (u_email user) JWT_SECRET now in
                  (res_json (TokenBody token), st)
            end
        end
    end.

(** [app.get('/cars', ...)] *)
Definition get_cars (req : request) (st : db) : response * db :=
  match select_cars st with
  | Rejects => (res_status 500 (ErrorBody "Error fetching cars"), st)
  | Resolves rows => (res_json (CarsBody rows), st)
  end.

(** [app.get('/cars/:id', ...)] *)
Definition get_car (req : request) (st : db) : response * db :=
  match select_car_by_id st (JStr (params_id req)) with
  | Rejects => (res_status 500 (ErrorBody "Error fetching car"), st)
  | Resolves rows =>
      match rows with
      | [] => (res_status 404 (ErrorBody "Car not found"), st)
      | c :: _ => (res_json (CarBody c), st)
      end
  end.

(** [app.post('/cars', ...)] *)
Definition post_cars (req : request) (st : db) : response * db :=
  let name := field (req_body req) "name" in
  let details := field (req_body req) "details" in
  let price := field (req_body req) "price" in
  if negb (truthy name) || negb (truthy details) || negb (truthy price) then
    (res_status 400 (ErrorBody "Name, details and price are required"), st)
  else
    match insert_car st name details price with
    | (Rejects, st') => (res_status 500 (ErrorBody "Error adding car"), st')
    | (Resolves _, st') => (res_status 201 (MessageBody "Car added successfully"), st')
    end.

(** The handler of [app.get('/bookings', authenticateToken, ...)] *)
Definition bookings_handler (user : claims) (req : request) (st : db) : response * db :=
  match select_bookings_of st (JNum (jwt_id user)) with
  | Rejects => (res_status 500 (ErrorBody "Error fetching bookings"), st)
  | Resolves rows => (res_json (BookingsBody rows), st)
  end.

(** The handler of [app.get('/bookings/:id', authenticateToken, ...)] *)
Definition booking_handler (user : claims) (req : request) (st : db) : response * db :=
  match select_booking st (JStr (params_id req)) (JNum (jwt_id user)) with
  | Rejects => (res_status 500 (ErrorBody "Error fetching booking"), st)
  | Resolves rows =>
      match rows with
      | [] => (res_status 404 (ErrorBody "Booking not found"), st)
      | b :: _ => (res_json (BookingBody b), st)
      end
  end.

(** The handler of [app.post('/bookings', authenticateToken, ...)] *)
Definition book_handler (user : claims) (req : request) (st : db) : response * db :=
  let car_id := field (req_body req) "car_id" in
  let travel_date := field (req_body req) "travel_date" in
  if negb (truthy car_id) || negb (truthy travel_date) then
    (res_status 400 (ErrorBody "car_id and travel_date are required"), st)
  else
    match select_car_by_id st car_id with
    | Rejects => (res_status 500 (ErrorBody "Server error during booking"), st)
    | Resolves carResult =>
        match carResult with
        | [] => (res_status 404 (ErrorBody "Car not found"), st)
        | _ :: _ =>
            match insert_booking st (JNum (jwt_id user)) car_id travel_date with
            | (Rejects, st') =>
                (res_status 500 (ErrorBody "Server error during booking"), st')
            | (Resolves _, st') =>
                (res_status 201 (MessageBody "Booking created successfully"), st')
            end
        end
    end.

Definition get_bookings := protected bookings_handler.
Definition get_booking := protected booking_handler.
Definition post_bookings := protected book_handler.
End App.

(** The whole application: the routes of the source. *)
Inductive route : Type :=
  | POST_register
  | POST_login
  | GET_cars
  | GET_cars_id
  | POST_cars
  | GET_bookings
  | GET_bookings_id
  | POST_bookings.

(** What a request meets besides the database: the clock, in seconds, and
    the salt [bcrypt.hash] draws. *)
Record world := { clock : Z; entropy : string }.

Section Dispatch.
Context `{PgInput} `{Jose} `{Bcrypt}.
Variable JWT_SECRET : string.

Definition app (r : route) (w : world) (req : request) (st : db) : response * db :=
  match r with
  | POST_register => post_register (entropy w) req st
  | POST_login => post_login JWT_SECRET (clock w) req st
  | GET_cars => get_cars req st
  | GET_cars_id => get_car req st
  | POST_cars => post_cars req st
  | GET_bookings => get_bookings JWT_SECRET (clock w) req st
  | GET_bookings_id => get_booking JWT_SECRET (clock w) req st
  | POST_bookings => post_bookings JWT_SECRET (clock w) req st
  end.

(** The database after a sequence of requests. *)
Fixpoint run (trace : list (route * world * request)) (st : db) : db :=
  match trace with
  | [] => st
  | (r, w, req) :: rest => run rest (app r w req st).2
  end.
End Dispatch.

(** ** A sample instance of the interfaces

    Simple stand-ins on which requests can be run: decimal integers,
    ISO dates, a checksum for the signature and a salted copy for the
    password hash. *)
Module Sample.

Definition decimal (s : string) : option Z :=
  option_map Z.of_int (NilZero.int_of_string s).

Definition text (n : Z) : string := NilZero.string_of_int (Z.to_int n).

Fixpoint join (c : ascii) (l : list string) : string :=
  match l with
  | [] => ""
  | [x] => x
  | x :: l' => x ++ String c (join c l')
  end.

(** ["YYYY-MM-DD"], read as the integer YYYYMMDD. *)
Definition iso_date (s : string) : option Z :=
  match split "-" s with
  | [y; m; d] =>
      match decimal y, decimal m, decimal d with
      | Some y, Some m, Some d =>
          if (1 <=? m) && (m <=? 12) && (1 <=? d) && (d <=? 31) && (0 <=? y)
          then Some (y * 10000 + m * 100 + d) else None
      | _, _, _ => None
      end
  | _ => None
  end.

#[export] Instance pg : PgInput := {|
  number_text := text;
  json_text := fun _ => "{}";
  array_text := fun _ => "{}";
  int4in := fun s => match decimal s with
                     | Some n => if in_int4 n then Some n else None
                     | None => None
                     end;
  numeric_in := fun s => option_map numeric_of_Z (decimal s);
  date_in := iso_date
|}.

Fixpoint checksum (s : string) : Z :=
  match s with
  | EmptyString => 7
  | String a rest => (Z.of_nat (nat_of_ascii a) + 31 * checksum rest) mod 1000003
  end.

Definition email_text (e : option string) : string :=
  match e with
  | None => "n"
  | Some s => String "s" s
  end.

Definition claims_text (c : claims) : string :=
  join "." [text (jwt_id c); text (iat c); text (exp c); email_text (jwt_email c)].

Definition parse_email (s : string) : option (option string) :=
  match s with
  | String "n" EmptyString => Some None
  | String "s" e => Some (Some e)
  | _ => None
  end.

#[export] Instance jose : Jose := {|
  hmac := fun secret c => text (checksum (secret ++ "|" ++ claims_text c));
  compact := fun t => join "." [signature t; claims_text (payload t)];
  parse_compact := fun s =>
    match split "." s with
    | sig :: id :: i :: e :: m :: more =>
        match decimal id, decimal i, decimal e, parse_email (join "." (m :: more)) with
        | Some id, Some i, Some e, Some m =>
            Some {| payload := {| jwt_id := id; jwt_email := m; iat := i; exp := e |};
                    signature := sig |}
        | _, _, _, _ => None
        end
    | _ => None
    end
|}.

#[export] Instance bcrypt : Bcrypt := {|
  bcrypt_hash := fun s rounds salt =>
    match s with
    | JStr p => Resolves (join "$" [text rounds; salt; p])
    | _ => Rejects
    end;
  bcrypt_compare := fun s hash =>
    match s, hash with
    | JStr p, Some h =>
        match split "$" h with
        | _ :: _ :: rest => Resolves (String.eqb (join "$" rest) p)
        | _ => Resolves false
        end
    | _, _ => Rejects
    end
|}.

Definition secret : string := "s3cret".

Definition req (auth : option string) (id : string) (fields : list (string * jsval)) : request :=
  {| authorization := auth; params_id := id; req_body := list_to_map fields |}.

Definition at_time (t : Z) : world := {| clock := t; entropy := "salt" |}.

Definition ana : list (string * jsval) :=
  [("name", JStr "Ana"); ("email", JStr "ana@x.com"); ("password", JStr "secret")].

Definition bob : list (string * jsval) :=
  [("name", JStr "Bob"); ("email", JStr "bob@x.com"); ("password", JStr "hunter2")].

Definition civic : list (string * jsval) :=
  [("name", JStr "Civic"); ("details", JStr "sedan"); ("price", JNum 20000)].

(** Ana and Bob registered, one car added. *)
Definition db1 : db :=
  run secret [(POST_register, at_time 1000, req None "" ana);
              (POST_register, at_time 1001, req None "" bob);
              (POST_cars, at_time 1002, req None "" civic)] empty_db.

(** The token a login at time [t] answers, [""] when it answers none. *)
Definition login_token (t : Z) (fields : list (string * jsval)) (st : db) : string :=
  match body (app secret POST_login (at_time t) (req None "" fields) st).1 with
  | TokenBody tok => tok
  | _ => ""
  end.

Definition bearer (tok : string) : option string := Some ("Bearer " ++ tok).

Definition ana_token : string := login_token 2000 ana db1.
Definition bob_token : string := login_token 2000 bob db1.

Definition booking_2025 : list (string * jsval) :=
  [("car_id", JNum 1); ("travel_date", JStr "2025-01-01")].

(** Ana has booked the car. *)
Definition db2 : db :=
  (app secret POST_bookings (at_time 2100) (req (bearer ana_token) "" booking_2025) db1).2.

(** Rows and requests of the scenarios. *)

Definition ana_claims : claims :=
  {| jwt_id := 1; jwt_email := Some "ana@x.com"; iat := 2000; exp := 5600 |}.

Definition bob_claims : claims :=
  {| jwt_id := 2; jwt_email := Some "bob@x.com"; iat := 2000; exp := 5600 |}.

Definition absent_car : request :=
  req (bearer ana_token) "" [("car_id", JNum 9999); ("travel_date", JStr "2025-01-01")].

Definition absent_car_no_date : request :=
  req (bearer ana_token) "" [("car_id", JNum 9999)].

Definition ana_row : user :=
  {| u_id := 1; u_name := Some "Ana"; u_email := Some "ana@x.com";
     u_password := Some "10$salt$secret" |}.

Definition civic_row : car :=
  {| c_id := 1; c_name := Some "Civic"; c_details := Some "sedan";
     c_price := Some (numeric_of_Z 20000) |}.

Definition ana_booking : booking :=
  {| b_id := 1; b_user_id := Some 1; b_car_id := Some 1;
     b_travel_date := Some 20250101 |}.

Definition history : list (route * world * request) :=
  [(POST_register, at_time 1000, req None "" ana);
   (POST_register, at_time 1001, req None "" bob);
   (POST_cars, at_time 1002, req None "" civic);
   (POST_bookings, at_time 2100,
    req (bearer ana_token) "" (("user_id", JNum 2) :: booking_2025))].

Definition bob_reads_1 : request := req (bearer bob_token) "1" [].

Definition bob_reads_77 : request := req (bearer bob_token) "77" [].

Definition no_header : request := req None "" [].

Definition forged : request := req (Some "Bearer 1.1.2000.5600.sana@x.com") "" [].

Definition garbage : request := req (Some "Bearer abc") "" [].

Definition ana_lists : request := req (bearer ana_token) "" [].

Definition ana_again : request :=
  req None "" [("name", JStr "Eve"); ("email", JStr "ana@x.com");
               ("password", JStr "another")].

Definition ana_logs_in : request := req None "" ana.

Definition eve_logs_in : request :=
  req None "" [("email", JStr "eve@x.com"); ("password", JStr "secret")].

Definition ana_mistypes : request :=
  req None "" [("email", JStr "ana@x.com"); ("password", JStr "Secret")].

Definition ana_books : request := req (bearer ana_token) "" booking_2025.

Definition bob_books : request := req (bearer bob_token) "" booking_2025.

Definition free_car : request :=
  req None "" [("name", JStr "Civic"); ("details", JStr "sedan"); ("price", JNum 0)].

Definition car_zero : request :=
  req (bearer ana_token) "" [("car_id", JNum 0); ("travel_date", JStr "2025-01-01")].

Definition no_password : request :=
  req None "" [("name", JStr "Eve"); ("email", JStr "eve@x.com"); ("password", JStr "")].

Definition free_car_as_text : request :=
  req None "" [("name", JStr "Civic"); ("details", JStr "sedan"); ("price", JStr "0")].

(** Further rows and requests. *)

Definition bob_row : user :=
  {| u_id := 2; u_name := Some "Bob"; u_email := Some "bob@x.com";
     u_password := Some "10$salt$hunter2" |}.

Definition get_car_1 : request := req None "1" [].
Definition get_car_9 : request := req None "9" [].
Definition get_car_abc : request := req None "abc" [].

Definition add_jeep : request :=
  req None "" [("name", JStr "Jeep"); ("details", JStr "4x4"); ("price", JNum 35000)].

Definition ana_row_1 : booking_row :=
  {| br_id := 1; br_travel_date := Some 20250101; br_car_name := Some "Civic";
     br_car_details := Some "sedan"; br_car_price := Some (numeric_of_Z 20000) |}.

Definition ana_reads_1 : request := req (bearer ana_token) "1" [].

Definition eve : list (string * jsval) :=
  [("name", JStr "Eve"); ("email", JStr "eve@x.com"); ("password", JStr "pw3")].

Definition eve_registers : request := req None "" eve.

Definition eve_returns : request :=
  req None "" [("email", JStr "eve@x.com"); ("password", JStr "pw3")].

(** Two logins whose password is the JSON number 12345. *)
Definition ana_sends_number : request :=
  req None "" [("email", JStr "ana@x.com"); ("password", JNum 12345)].

Definition eve_sends_number : request :=
  req None "" [("email", JStr "eve@x.com"); ("password", JNum 12345)].

(** A second serialization of signed tokens, one that every token survives:
    integers in binary, strings with each character behind a mark. *)

Fixpoint put_positive (p : positive) (rest : string) : string :=
  match p with
  | xI q => String "1" (put_positive q rest)
  | xO q => String "0" (put_positive q rest)
  | xH => String "." rest
  end.

Fixpoint get_positive (s : string) : option (positive * string) :=
  match s with
  | String "1" r => match get_positive r with
                    | Some (q, rest) => Some (xI q, rest)
                    | None => None
                    end
  | String "0" r => match get_positive r with
                    | Some (q, rest) => Some (xO q, rest)
                    | None => None
                    end
  | String "." rest => Some (xH, rest)
  | _ => None
  end.

Definition put_Z (z : Z) (rest : string) : string :=
  match z with
  | Z0 => String "z" rest
  | Zpos p => String "p" (put_positive p rest)
  | Zneg p => String "n" (put_positive p rest)
  end.

Definition get_Z (s : string) : option (Z * string) :=
  match s with
  | String "z" rest => Some (0, rest)
  | String "p" r => match get_positive r with
                    | Some (p, rest) => Some (Zpos p, rest)
                    | None => None
                    end
  | String "n" r => match get_positive r with
                    | Some (p, rest) => Some (Zneg p, rest)
                    | None => None
                    end
  | _ => None
  end.

Fixpoint put_string (s rest : string) : string :=
  match s with
  | EmptyString => String "." rest
  | String c r => String "x" (String c (put_string r rest))
  end.

Fixpoint get_string (s : string) : option (string * string) :=
  match s with
  | String "." rest => Some (EmptyString, rest)
  | String "x" (String c r) => match get_string r with
                               | Some (t, rest) => Some (String c t, rest)
                               | None => None
                               end
  | _ => None
  end.

Definition put_email (e : option string) (rest : string) : string :=
  match e with
  | None => String "n" rest
  | Some s => String "s" (put_string s rest)
  end.

Definition get_email (s : string) : option (option string * string) :=
  match s with
  | String "n" rest => Some (None, rest)
  | String "s" r => match get_string r with
                    | Some (e, rest) => Some (Some e, rest)
                    | None => None
                    end
  | _ => None
  end.

Definition strict_compact (t : jws) : string :=
  put_Z (jwt_id (payload t))
    (put_Z (iat (payload t))
       (put_Z (exp (payload t))
          (put_email (jwt_email (payload t)) (put_string (signature t) "")))).

Definition strict_parse (s : string) : option jws :=
  match get_Z s with
  | Some (id, s1) =>
      match get_Z s1 with
      | Some (i, s2) =>
          match get_Z s2 with
          | Some (e, s3) =>
              match get_email s3 with
              | Some (m, s4) =>
                  match get_string s4 with
                  | Some (sig, EmptyString) =>
                      Some {| payload := {| jwt_id := id; jwt_email := m;
                                            iat := i; exp := e |};
                              signature := sig |}
                  | _ => None
                  end
              | None => None
              end
          | None => None
          end
      | None => None
      end
  | None => None
  end.

Definition strict_jose : Jose := {|
  hmac := fun secret c => text (checksum (secret ++ "|" ++ claims_text c));
  compact := strict_compact;
  parse_compact := strict_parse
|}.

(** Ana's token under the second serialization, and a request carrying
    it. *)
Definition ana_strict_token : string :=
  @jwt_sign strict_jose 1 (Some "ana@x.com") secret 2000.

Definition ana_strict_lists : request := req (bearer ana_strict_token) "" [].

End Sample.

(** ** The database invariant

    What holds of every database the application has built: keys come from
    the sequences, so they are positive, at most the last value handed out,
    and distinct; sequences stay within 32 bits; stored e-mails fit their
    column and are distinct; every booking references rows that exist. *)

Definition keys_ok {A} (key : A -> Z) (seq : Z) (rows : list A) : Prop :=
  0 <= seq <= int4_max
  /\ Forall (fun r => 1 <= key r <= seq) rows
  /\ NoDup (List.map key rows).

Definition email_fits (u : user) : Prop :=
  forall e, u_email u = Some e -> (String.length e <= 100)%nat.

Definition booking_refs_ok (st : db) (b : booking) : Prop :=
  references (has_user st) (b_user_id b) = true
  /\ references (has_car st) (b_car_id b) = true.

Record db_ok (st : db) : Prop := {
  users_keys : keys_ok u_id (users_id_seq st) (users st);
  cars_keys : keys_ok c_id (cars_id_seq st) (cars st);
  bookings_keys : keys_ok b_id (bookings_id_seq st) (bookings st);
  emails_fit : Forall email_fits (users st);
  emails_unique : NoDup (omap u_email (users st));
  bookings_refs : Forall (booking_refs_ok st) (bookings st)
}.

(** ** Reading a claim on a request *)

Section Readings.
Context `{PgInput}.

(** The value [v] sent as a car id designates the car [c] of [st]. *)
Definition designates_car (st : db) (v : jsval) (c : car) : Prop :=
  In c (cars st) /\ pg_int4 v = Resolves (Some (c_id c)).

(** The value [v] sent as a car id designates no car of [st]. *)
Definition no_such_car (st : db) (v : jsval) : Prop :=
  forall c, ~ designates_car st v c.

End Readings.

(** The string [s] holds no space. *)
Fixpoint no_space (s : string) : bool :=
  match s with
  | EmptyString => true
  | String a rest => negb (Ascii.eqb a " "%char) && no_space rest
  end.

(** The request [req] with [h] as its Authorization header. *)
Definition with_authorization (h : string) (req : request) : request :=
  {| authorization := Some h; params_id := params_id req; req_body := req_body req |}.

(** * Properties *)

Example split_bearer : split " " "Bearer abc.def.ghi" = ["Bearer"; "abc.def.ghi"].
Proof. reflexivity. Qed.

Example split_no_space : bearer_token (Some "abc") = None.
Proof. reflexivity. Qed.

Example split_double_space : bearer_token (Some "Bearer  abc") = Some "".
Proof. reflexivity. Qed.

(** ** Keys and sequences *)

Lemma nextval_resolves last k :
  nextval last = Resolves k -> k = last + 1 /\ last < int4_max.
Proof.
  unfold nextval. destruct (Z.ltb_spec last int4_max); intros E; inversion E; lia.
Qed.

Lemma existsb_key_false {A} (key : A -> Z) (rows : list A) (k seq : Z) :
  Forall (fun r => 1 <= key r <= seq) rows -> seq < k ->
  existsb (fun r => key r =? k) rows = false.
Proof.
  induction 1 as [|r rows Hr _ IH]; intros Hk; simpl; [reflexivity|].
  rewrite IH by assumption. destruct (Z.eqb_spec (key r) k); [lia | reflexivity].
Qed.

Lemma existsb_key_In {A} (key : A -> Z) (rows : list A) (k : Z) :
  existsb (fun r => key r =? k) rows = true <-> exists r, In r rows /\ key r = k.
Proof.
  rewrite existsb_exists. split; intros (r & Hr & E); exists r; split; auto; lia.
Qed.

Lemma keys_ok_seq {A} (key : A -> Z) seq (rows : list A) :
  keys_ok key seq rows -> seq < int4_max -> keys_ok key (seq + 1) rows.
Proof.
  intros (Hs & Hf & Hn) Hlt. repeat split; try lia; [|assumption].
  eapply Forall_impl; [exact Hf|]. simpl. intros; lia.
Qed.

Lemma keys_ok_snoc {A} (key : A -> Z) seq (rows : list A) (r : A) :
  keys_ok key seq rows -> seq < int4_max -> key r = seq + 1 ->
  keys_ok key (seq + 1) (rows ++ [r]).
Proof.
  intros (Hs & Hf & Hn) Hlt Hk. repeat split; try lia.
  - apply Forall_app. split.
    + eapply Forall_impl; [exact Hf|]. simpl. intros; lia.
    + constructor; [lia | constructor].
  - rewrite map_app. simpl. apply NoDup_app. repeat split; [assumption| |].
    + intros x Hx Hx'. apply list_elem_of_In in Hx, Hx'. simpl in Hx'.
      destruct Hx' as [<-|[]]. apply in_map_iff in Hx as (r' & E & Hr').
      rewrite Forall_forall in Hf.
      assert (1 <= key r' <= seq) by (apply Hf; apply list_elem_of_In; exact Hr').
      lia.
    + apply NoDup_singleton.
Qed.

(** ** Column assignment *)

Lemma take_chars_length n s : (String.length (take_chars n s) <= n)%nat.
Proof.
  revert s. induction n as [|n IH]; intros [|a s]; simpl; try lia.
  specialize (IH s). lia.
Qed.

Lemma varchar_assign_fits n s s' :
  varchar_assign n s = Resolves s' -> (String.length s' <= n)%nat.
Proof.
  unfold varchar_assign. destruct (Nat.leb_spec (String.length s) n) as [Hle|Hgt].
  - intros E; inversion E; subst; exact Hle.
  - destruct (all_spaces (drop_chars n s)); intros E; inversion E.
    apply take_chars_length.
Qed.

Lemma varchar_assign_short n s :
  (String.length s <= n)%nat -> varchar_assign n s = Resolves s.
Proof.
  intros Hle. unfold varchar_assign.
  destruct (Nat.leb_spec (String.length s) n); [reflexivity | lia].
Qed.

Lemma email_taken_spec st e :
  email_taken st (Some e) = true <-> e ∈ omap u_email (users st).
Proof.
  unfold email_taken. rewrite existsb_exists, list_elem_of_omap. split.
  - intros (u & Hu & E). exists u. split; [apply list_elem_of_In; exact Hu|].
    destruct (u_email u) as [e'|]; simpl in E; [|discriminate].
    apply String.eqb_eq in E. congruence.
  - intros (u & Hu & E). exists u. split; [apply list_elem_of_In; exact Hu|].
    rewrite E. simpl. apply String.eqb_refl.
Qed.

Lemma has_key_snoc {A} (key : A -> Z) (rows : list A) (r : A) (k : Z) :
  existsb (fun x => key x =? k) rows = true ->
  existsb (fun x => key x =? k) (rows ++ [r]) = true.
Proof. intros E. rewrite existsb_app, E. reflexivity. Qed.

Lemma references_mono (has has' : Z -> bool) fk :
  (forall k, has k = true -> has' k = true) ->
  references has fk = true -> references has' fk = true.
Proof. destruct fk; simpl; auto. Qed.

Lemma bookings_refs_mono st st' :
  bookings st' = bookings st ->
  (forall k, has_user st k = true -> has_user st' k = true) ->
  (forall k, has_car st k = true -> has_car st' k = true) ->
  Forall (booking_refs_ok st) (bookings st) ->
  Forall (booking_refs_ok st') (bookings st').
Proof.
  intros -> Hu Hc Hf. eapply Forall_impl; [exact Hf|].
  intros b [? ?]. split; eapply references_mono; eauto.
Qed.

(** ** The invariant holds initially and every statement keeps it *)

Lemma empty_db_ok : db_ok empty_db.
Proof.
  split; simpl; try constructor; unfold keys_ok, int4_max; simpl;
    repeat split; try lia; constructor.
Qed.

Section Preservation.
Context `{PgInput}.

Lemma pg_varchar100_fits v e :
  pg_varchar100 v = Resolves (Some e) -> (String.length e <= 100)%nat.
Proof.
  unfold pg_varchar100. destruct (prepareValue v) as [s|]; [|discriminate].
  destruct (varchar_assign 100 s) as [s'|] eqn:E; simpl; [|discriminate].
  intros E'; inversion E'; subst. eapply varchar_assign_fits in E. exact E.
Qed.

Lemma insert_user_frame st name email password :
  let st' := (insert_user st name email password).2 in
  cars st' = cars st /\ bookings st' = bookings st
  /\ cars_id_seq st' = cars_id_seq st /\ bookings_id_seq st' = bookings_id_seq st.
Proof.
  unfold insert_user.
  destruct (pg_varchar100 name) as [n|]; simpl; [|tauto].
  destruct (pg_varchar100 email) as [e|]; simpl; [|tauto].
  destruct (nextval (users_id_seq st)) as [k|]; simpl; [|tauto].
  destruct (has_user st k || email_taken st e); simpl; tauto.
Qed.

Lemma insert_user_rejects st name email password st' :
  insert_user st name email password = (Rejects, st') -> users st' = users st.
Proof.
  unfold insert_user.
  destruct (pg_varchar100 name) as [n|]; simpl; [|intros E; inversion E; reflexivity].
  destruct (pg_varchar100 email) as [e|]; simpl; [|intros E; inversion E; reflexivity].
  destruct (nextval (users_id_seq st)) as [k|]; simpl;
    [|intros E; inversion E; reflexivity].
  destruct (has_user st k || email_taken st e); intros E; inversion E; reflexivity.
Qed.

Lemma insert_user_ok st name email password :
  db_ok st -> db_ok (insert_user st name email password).2.
Proof.
  intros [Hu Hc Hb Hfit Huniq Hrefs]. unfold insert_user.
  destruct (pg_varchar100 name) as [n|]; simpl; [|split; assumption].
  destruct (pg_varchar100 email) as [e|] eqn:He; simpl; [|split; assumption].
  destruct (nextval (users_id_seq st)) as [k|] eqn:Hk; [|split; assumption].
  apply nextval_resolves in Hk as [-> Hlt].
  assert (Hst1 : db_ok (set_users st (users_id_seq st + 1) (users st))).
  { split; simpl; try assumption. apply keys_ok_seq; assumption. }
  destruct (has_user st (users_id_seq st + 1) || email_taken st e) eqn:Hchk;
    simpl; [exact Hst1|].
  apply orb_false_iff in Hchk as [_ Htaken].
  split; [ | exact Hc | exact Hb | | | ].
  - apply keys_ok_snoc; [assumption..|reflexivity].
  - simpl. apply Forall_app. split; [assumption|]. constructor; [|constructor].
    intros e' E. simpl in E. subst e. eapply pg_varchar100_fits; eassumption.
  - simpl. rewrite omap_app. apply NoDup_app. repeat split; [assumption| |].
    + intros x Hx Hx'. simpl in Hx'. destruct e as [e|]; simpl in Hx'.
      * apply list_elem_of_singleton in Hx'. subst x.
        apply email_taken_spec in Hx. congruence.
      * inversion Hx'.
    + simpl. destruct e; simpl; [apply NoDup_singleton | constructor].
  - apply (bookings_refs_mono st); [reflexivity | | auto | assumption].
    intros k. unfold has_user. simpl. apply has_key_snoc.
Qed.

Lemma insert_car_frame st name details price :
  let st' := (insert_car st name details price).2 in
  users st' = users st /\ bookings st' = bookings st
  /\ users_id_seq st' = users_id_seq st /\ bookings_id_seq st' = bookings_id_seq st.
Proof.
  unfold insert_car. destruct (pg_numeric price); simpl; [|tauto].
  destruct (pg_varchar100 name); simpl; [|tauto].
  destruct (nextval (cars_id_seq st)) as [k|]; simpl; [|tauto].
  destruct (has_car st k); simpl; tauto.
Qed.

Lemma insert_car_ok st name details price :
  db_ok st -> db_ok (insert_car st name details price).2.
Proof.
  intros [Hu Hc Hb Hfit Huniq Hrefs]. unfold insert_car.
  destruct (pg_numeric price) as [p|]; simpl; [|split; assumption].
  destruct (pg_varchar100 name) as [n|]; simpl; [|split; assumption].
  destruct (nextval (cars_id_seq st)) as [k|] eqn:Hk; [|split; assumption].
  apply nextval_resolves in Hk as [-> Hlt].
  assert (Hst1 : db_ok (set_cars st (cars_id_seq st + 1) (cars st))).
  { split; simpl; try assumption. apply keys_ok_seq; assumption. }
  destruct (has_car st (cars_id_seq st + 1)); simpl; [exact Hst1|].
  split; [exact Hu | | exact Hb | exact Hfit | exact Huniq | ].
  - apply keys_ok_snoc; [assumption..|reflexivity].
  - apply (bookings_refs_mono st); [reflexivity | auto | | assumption].
    intros k. unfold has_car. simpl. apply has_key_snoc.
Qed.

Lemma insert_booking_frame st user_id car_id travel_date :
  let st' := (insert_booking st user_id car_id travel_date).2 in
  users st' = users st /\ cars st' = cars st
  /\ users_id_seq st' = users_id_seq st /\ cars_id_seq st' = cars_id_seq st.
Proof.
  unfold insert_booking.
  destruct (pg_int4 user_id) as [u|]; simpl; [|tauto].
  destruct (pg_int4 car_id) as [c|]; simpl; [|tauto].
  destruct (pg_date travel_date) as [d|]; simpl; [|tauto].
  destruct (nextval (bookings_id_seq st)) as [k|]; simpl; [|tauto].
  destruct (has_booking st k || negb (references (has_user st) u)
            || negb (references (has_car st) c)); simpl; tauto.
Qed.

(** What the INSERT of a booking does to the table: nothing when it
    fails, one row at the end when it succeeds, and that row holds the
    three parameters. *)
Lemma insert_booking_rows st user_id car_id travel_date o st' :
  insert_booking st user_id car_id travel_date = (o, st') ->
  (o = Rejects /\ bookings st' = bookings st)
  \/ (exists b, o = Resolves tt /\ bookings st' = (bookings st ++ [b])%list
                /\ pg_int4 user_id = Resolves (b_user_id b)
                /\ pg_int4 car_id = Resolves (b_car_id b)
                /\ pg_date travel_date = Resolves (b_travel_date b)
                /\ b_id b = bookings_id_seq st + 1).
Proof.
  unfold insert_booking.
  destruct (pg_int4 user_id) as [u|]; simpl;
    [|intros E; inversion E; left; auto].
  destruct (pg_int4 car_id) as [c|]; simpl;
    [|intros E; inversion E; left; auto].
  destruct (pg_date travel_date) as [d|]; simpl;
    [|intros E; inversion E; left; auto].
  destruct (nextval (bookings_id_seq st)) as [k|] eqn:Hk; simpl;
    [|intros E; inversion E; left; auto].
  apply nextval_resolves in Hk as [-> _].
  destruct (has_booking st _ || negb (references (has_user st) u)
            || negb (references (has_car st) c)); simpl;
    intros E; inversion E; subst; [left; auto|].
  right. eexists. simpl. repeat split; reflexivity.
Qed.

Lemma insert_booking_ok st user_id car_id travel_date :
  db_ok st -> db_ok (insert_booking st user_id car_id travel_date).2.
Proof.
  intros [Hu Hc Hb Hfit Huniq Hrefs]. unfold insert_booking.
  destruct (pg_int4 user_id) as [u|]; simpl; [|split; assumption].
  destruct (pg_int4 car_id) as [c|]; simpl; [|split; assumption].
  destruct (pg_date travel_date) as [d|]; simpl; [|split; assumption].
  destruct (nextval (bookings_id_seq st)) as [k|] eqn:Hk; [|split; assumption].
  apply nextval_resolves in Hk as [-> Hlt].
  assert (Hst1 : db_ok (set_bookings st (bookings_id_seq st + 1) (bookings st))).
  { split; simpl; try assumption. apply keys_ok_seq; assumption. }
  destruct (has_booking st _ || negb (references (has_user st) u)
            || negb (references (has_car st) c)) eqn:Hchk; simpl; [exact Hst1|].
  apply orb_false_iff in Hchk as [Hchk Hcar].
  apply orb_false_iff in Hchk as [_ Huser].
  apply negb_false_iff in Hcar, Huser.
  split; [exact Hu | exact Hc | | exact Hfit | exact Huniq | ].
  - apply keys_ok_snoc; [assumption..|reflexivity].
  - simpl. apply Forall_app. split.
    + eapply Forall_impl; [exact Hrefs|]. intros b [? ?]. split; assumption.
    + constructor; [|constructor]. split; assumption.
Qed.

(** Success of the INSERT of a booking: well-formed parameters, a
    sequence that is not exhausted and references that exist. *)
Lemma insert_booking_resolves st user_id car_id travel_date u c d :
  db_ok st ->
  pg_int4 user_id = Resolves u -> pg_int4 car_id = Resolves c ->
  pg_date travel_date = Resolves d ->
  bookings_id_seq st < int4_max ->
  references (has_user st) u = true -> references (has_car st) c = true ->
  insert_booking st user_id car_id travel_date =
    (Resolves tt,
     set_bookings st (bookings_id_seq st + 1)
       (bookings st ++ [{| b_id := bookings_id_seq st + 1; b_user_id := u;
                           b_car_id := c; b_travel_date := d |}])).
Proof.
  intros Hok Eu Ec Ed Hlt Hu Hc. unfold insert_booking.
  rewrite Eu, Ec, Ed. simpl. unfold nextval.
  destruct (Z.ltb_spec (bookings_id_seq st) int4_max); [|lia].
  destruct Hok as [_ _ (_ & Hf & _) _ _ _].
  unfold has_booking. rewrite (existsb_key_false b_id _ _ (bookings_id_seq st)) by (auto; lia).
  rewrite Hu, Hc. reflexivity.
Qed.
End Preservation.

(** ** Handlers *)

Section Handlers.
Context `{PgInput} `{Jose} `{Bcrypt}.
Variable JWT_SECRET : string.

Lemma protected_ok handler now req st :
  (forall user, db_ok st -> db_ok (handler user req st).2) ->
  db_ok st -> db_ok (protected JWT_SECRET handler now req st).2.
Proof.
  intros Hh Hok. unfold protected.
  destruct (authenticateToken JWT_SECRET now req); simpl; auto.
Qed.

Lemma book_handler_ok user req st : db_ok st -> db_ok (book_handler user req st).2.
Proof.
  intros Hok. unfold book_handler.
  destruct (negb (truthy _) || negb (truthy _)); [exact Hok|].
  destruct (select_car_by_id st _) as [[|c rows]|]; try exact Hok.
  pose proof (insert_booking_ok st (JNum (jwt_id user)) (field (req_body req) "car_id")
                (field (req_body req) "travel_date") Hok) as Hins.
  destruct (insert_booking st _ _ _) as [[[]|] st']; exact Hins.
Qed.

Lemma bookings_handler_state user req st : (bookings_handler user req st).2 = st.
Proof. unfold bookings_handler. destruct (select_bookings_of st _); reflexivity. Qed.

Lemma booking_handler_state user req st : (booking_handler user req st).2 = st.
Proof.
  unfold booking_handler. destruct (select_booking st _ _) as [[|b rows]|]; reflexivity.
Qed.

Lemma post_login_state now req st : (post_login JWT_SECRET now req st).2 = st.
Proof.
  unfold post_login. destruct (negb (truthy _) || negb (truthy _)); [reflexivity|].
  destruct (select_user_by_email st _) as [rows|]; [|reflexivity].
  destruct (rows !! 0%nat) as [user|]; [|reflexivity].
  destruct (bcrypt_compare _ _) as [[|]|]; reflexivity.
Qed.

Lemma get_cars_state req st : (get_cars req st).2 = st.
Proof. reflexivity. Qed.

Lemma get_car_state req st : (get_car req st).2 = st.
Proof. unfold get_car. destruct (select_car_by_id st _) as [[|c rows]|]; reflexivity. Qed.

Lemma post_register_ok salt req st : db_ok st -> db_ok (post_register salt req st).2.
Proof.
  intros Hok. unfold post_register.
  destruct (negb (truthy _) || negb (truthy _) || negb (truthy _)); [exact Hok|].
  destruct (bcrypt_hash _ _ _) as [hashed|]; [|exact Hok].
  pose proof (insert_user_ok st (field (req_body req) "name") (field (req_body req) "email")
                (JStr hashed) Hok) as Hins.
  destruct (insert_user st _ _ _) as [[[]|] st']; exact Hins.
Qed.

Lemma post_register_bookings salt req st :
  bookings (post_register salt req st).2 = bookings st.
Proof.
  unfold post_register.
  destruct (negb (truthy _) || negb (truthy _) || negb (truthy _)); [reflexivity|].
  destruct (bcrypt_hash _ _ _) as [hashed|]; [|reflexivity].
  pose proof (insert_user_frame st (field (req_body req) "name")
                (field (req_body req) "email") (JStr hashed)) as (_ & Hb & _).
  destruct (insert_user st _ _ _) as [[[]|] st']; exact Hb.
Qed.

Lemma post_cars_ok req st : db_ok st -> db_ok (post_cars req st).2.
Proof.
  intros Hok. unfold post_cars.
  destruct (negb (truthy _) || negb (truthy _) || negb (truthy _)); [exact Hok|].
  pose proof (insert_car_ok st (field (req_body req) "name") (field (req_body req) "details")
                (field (req_body req) "price") Hok) as Hins.
  destruct (insert_car st _ _ _) as [[[]|] st']; exact Hins.
Qed.

Lemma post_cars_bookings req st : bookings (post_cars req st).2 = bookings st.
Proof.
  unfold post_cars.
  destruct (negb (truthy _) || negb (truthy _) || negb (truthy _)); [reflexivity|].
  pose proof (insert_car_frame st (field (req_body req) "name")
                (field (req_body req) "details") (field (req_body req) "price"))
    as (_ & Hb & _).
  destruct (insert_car st _ _ _) as [[[]|] st']; exact Hb.
Qed.

(** Every request leaves a well-formed database well-formed. *)
Lemma app_ok r w req st : db_ok st -> db_ok (app JWT_SECRET r w req st).2.
Proof.
  intros Hok. destruct r; simpl.
  - apply post_register_ok, Hok.
  - rewrite post_login_state. exact Hok.
  - exact Hok.
  - rewrite get_car_state. exact Hok.
  - apply post_cars_ok, Hok.
  - apply protected_ok; [|exact Hok]. intros user _. rewrite bookings_handler_state. exact Hok.
  - apply protected_ok; [|exact Hok]. intros user _. rewrite booking_handler_state. exact Hok.
  - apply protected_ok; [|exact Hok]. intros user _. apply book_handler_ok, Hok.
Qed.

Lemma run_ok trace st : db_ok st -> db_ok (run JWT_SECRET trace st).
Proof.
  revert st. induction trace as [|[[r w] req] trace IH]; intros st Hok; simpl; [exact Hok|].
  apply IH, app_ok, Hok.
Qed.

(** *** The gate *)

(** C4.  On each of the three protected routes (GET /bookings,
    GET /bookings/:id, POST /bookings) a request without a bearer token is
    answered 401 "Token missing", and a request whose token fails
    verification is answered 403 "Invalid or expired token", the same
    response whichever of the checks (well-formedness, signature, expiry)
    failed; in both cases the handler does not run and the database is
    untouched. *)
Theorem gate_outcomes (now : Z) (req : request) (st : db) :
  let rejected (res : response) :=
    get_bookings JWT_SECRET now req st = (res, st)
    /\ get_booking JWT_SECRET now req st = (res, st)
    /\ post_bookings JWT_SECRET now req st = (res, st) in
  (token_missing (bearer_token (authorization req)) = true ->
   rejected (res_status 401 (ErrorBody "Token missing")))
  /\ (forall token err,
        bearer_token (authorization req) = Some token -> token <> "" ->
        jwt_verify token JWT_SECRET now = inl err ->
        rejected (res_status 403 (ErrorBody "Invalid or expired token"))).
Proof.
  simpl. split.
  - intros Hmiss. unfold get_bookings, get_booking, post_bookings, protected,
      authenticateToken. rewrite Hmiss. auto.
  - intros token err Htok Hne Herr.
    unfold get_bookings, get_booking, post_bookings, protected, authenticateToken.
    rewrite Htok. simpl. destruct (String.eqb_spec token ""); [contradiction|].
    rewrite Herr. auto.
Qed.
End Handlers.

(** ** Bookings *)

Section Bookings.
Context `{PgInput} `{Jose} `{Bcrypt}.
Variable JWT_SECRET : string.

Lemma filter_car_nil st k :
  (forall c, In c (cars st) -> c_id c <> k) ->
  List.filter (fun c => c_id c =? k) (cars st) = [].
Proof.
  intros Hno. induction (cars st) as [|c rows IH]; simpl; [reflexivity|].
  destruct (Z.eqb_spec (c_id c) k) as [E|_].
  - exfalso. apply (Hno c); [left; reflexivity | exact E].
  - apply IH. intros c' Hc'. apply Hno. right. exact Hc'.
Qed.

Lemma select_absent_car st v :
  no_such_car st v ->
  select_car_by_id st v = Rejects \/ select_car_by_id st v = Resolves [].
Proof.
  intros Hno. unfold select_car_by_id.
  destruct (pg_int4 v) as [[k|]|] eqn:E; simpl; auto.
  right. f_equal. apply filter_car_nil. intros c Hc Hk.
  apply (Hno c). split; [exact Hc|]. rewrite E, Hk. reflexivity.
Qed.

(** C1, as amended.  For an authenticated create-booking request whose
    car_id designates no existing car, the database is left as it was, so
    no booking row is created; the answer is 404 "Car not found" when
    car_id and travel_date are both present (truthy) and car_id is a
    well-formed integer, 400 when one of the two fields is missing or
    falsy, and 500 when car_id is not a well-formed 32-bit integer. *)
Theorem absent_car_booking (now : Z) (req : request) (st : db) (user : claims) :
  authenticateToken JWT_SECRET now req = inr user ->
  no_such_car st (field (req_body req) "car_id") ->
  let car_id := field (req_body req) "car_id" in
  let travel_date := field (req_body req) "travel_date" in
  post_bookings JWT_SECRET now req st =
    (if negb (truthy car_id) || negb (truthy travel_date)
     then res_status 400 (ErrorBody "car_id and travel_date are required")
     else match pg_int4 car_id with
          | Rejects => res_status 500 (ErrorBody "Server error during booking")
          | Resolves _ => res_status 404 (ErrorBody "Car not found")
          end,
     st).
Proof.
  intros Hauth Hno. simpl. unfold post_bookings, protected. rewrite Hauth.
  unfold book_handler.
  destruct (negb (truthy _) || negb (truthy _)); [reflexivity|].
  destruct (select_absent_car st _ Hno) as [E|E]; rewrite E;
    unfold select_car_by_id in E;
    destruct (pg_int4 (field (req_body req) "car_id")) as [[k|]|];
    simpl in E; try discriminate; reflexivity.
Qed.

(** *** Who owns a new booking *)



Lemma pg_int4_num n u : pg_int4 (JNum n) = Resolves u -> u = Some n.
Proof. simpl. destruct (in_int4 n); intros E; inversion E; reflexivity. Qed.

(** One request: the bookings table stays as it is, or the request is a
    POST /bookings that passed the gate and the table gains one row owned
    by the id of the verified token. *)
Lemma app_bookings r w req st :
  let st' := (app JWT_SECRET r w req st).2 in
  bookings st' = bookings st
  \/ (r = POST_bookings
      /\ exists user b,
           authenticateToken JWT_SECRET (clock w) req = inr user
           /\ bookings st' = (bookings st ++ [b])%list
           /\ b_user_id b = Some (jwt_id user)).
Proof.
  destruct r; simpl.
  - left. apply post_register_bookings.
  - left. rewrite post_login_state. reflexivity.
  - left. reflexivity.
  - left. rewrite get_car_state. reflexivity.
  - left. apply post_cars_bookings.
  - left. unfold get_bookings, protected.
    destruct (authenticateToken _ _ _); [reflexivity|].
    rewrite bookings_handler_state. reflexivity.
  - left. unfold get_booking, protected.
    destruct (authenticateToken _ _ _); [reflexivity|].
    rewrite booking_handler_state. reflexivity.
  - unfold post_bookings, protected.
    destruct (authenticateToken _ _ _) as [res|user] eqn:Hauth; [left; reflexivity|].
    unfold book_handler.
    destruct (negb (truthy _) || negb (truthy _)); [left; reflexivity|].
    destruct (select_car_by_id st _) as [[|c rows]|]; try (left; reflexivity).
    destruct (insert_booking st _ _ _) as [o st'] eqn:Hins.
    apply insert_booking_rows in Hins as [[-> Hb]|(b & -> & Hb & Hu & _)].
    + left. exact Hb.
    + right. split; [reflexivity|]. exists user, b. repeat split; [exact Hb|].
      apply pg_int4_num in Hu. exact Hu.
Qed.

End Bookings.

Section Ownership.
Context `{PgInput} `{Jose} `{Bcrypt}.
Variable JWT_SECRET : string.

Lemma filter_none {A} (f : A -> bool) (l : list A) :
  (forall x, In x l -> f x = false) -> List.filter f l = [].
Proof.
  induction l as [|x l IH]; intros Hf; simpl; [reflexivity|].
  rewrite (Hf x) by (left; reflexivity). apply IH. intros y Hy. apply Hf. right. exact Hy.
Qed.

Lemma key_determines_row {A} (key : A -> Z) (l : list A) (x y : A) :
  NoDup (List.map key l) -> In x l -> In y l -> key x = key y -> x = y.
Proof.
  induction l as [|z l IH]; intros Hnd Hx Hy E; [destruct Hx|].
  simpl in Hnd. apply NoDup_cons in Hnd as [Hz Hnd].
  destruct Hx as [->|Hx], Hy as [->|Hy]; auto.
  - exfalso. apply Hz. apply list_elem_of_In. rewrite E. apply in_map. exact Hy.
  - exfalso. apply Hz. apply list_elem_of_In. rewrite <- E. apply in_map. exact Hx.
Qed.

Lemma has_user_in_int4 st k : db_ok st -> has_user st k = true -> in_int4 k = true.
Proof.
  intros [(Hs & Hf & _) _ _ _ _ _] Hk. apply existsb_key_In in Hk as (u & Hu & <-).
  rewrite Forall_forall in Hf.
  assert (1 <= u_id u <= users_id_seq st) by (apply Hf, list_elem_of_In, Hu).
  unfold in_int4, int4_min, int4_max in *. apply andb_true_iff. split; lia.
Qed.

(** C3.  In a database the application has built, let B be a booking
    owned by user A and let C, another user, be the caller the gate has
    verified.  GET /bookings/{B.id} by C is answered exactly as a GET for
    an id that no booking has: 404 "Booking not found", database
    untouched; the answer is not 403. *)
Theorem foreign_booking_hidden (now : Z) (st : db) (B : booking) (A : Z)
    (C : claims) (req req' : request) (k : Z) :
  db_ok st ->
  In B (bookings st) -> b_user_id B = Some A -> A <> jwt_id C ->
  has_user st (jwt_id C) = true ->
  authenticateToken JWT_SECRET now req = inr C ->
  pg_int4 (JStr (params_id req)) = Resolves (Some (b_id B)) ->
  authenticateToken JWT_SECRET now req' = inr C ->
  pg_int4 (JStr (params_id req')) = Resolves (Some k) ->
  has_booking st k = false ->
  get_booking JWT_SECRET now req st
    = (res_status 404 (ErrorBody "Booking not found"), st)
  /\ get_booking JWT_SECRET now req' st = get_booking JWT_SECRET now req st
  /\ status (get_booking JWT_SECRET now req st).1 <> 403.
Proof.
  intros Hok HB HA Hne HC Hauth Hid Hauth' Hid' Hk.
  assert (Hrange : pg_int4 (JNum (jwt_id C)) = Resolves (Some (jwt_id C))).
  { simpl. rewrite (has_user_in_int4 st _ Hok HC). reflexivity. }
  assert (E : get_booking JWT_SECRET now req st
              = (res_status 404 (ErrorBody "Booking not found"), st)).
  { unfold get_booking, protected. rewrite Hauth. unfold booking_handler, select_booking.
    rewrite Hid, Hrange. simpl. rewrite filter_none; [reflexivity|].
    intros b Hb. destruct (Z.eqb_spec (b_id b) (b_id B)) as [E|_]; [|reflexivity].
    destruct Hok as [_ _ (_ & _ & Hnd) _ _ _].
    rewrite (key_determines_row b_id _ b B Hnd Hb HB E), HA. simpl.
    destruct (Z.eqb_spec A (jwt_id C)); [contradiction | reflexivity]. }
  split; [exact E|]. split; [|rewrite E; discriminate].
  rewrite E. unfold get_booking, protected. rewrite Hauth'.
  unfold booking_handler, select_booking. rewrite Hid', Hrange. simpl.
  rewrite filter_none; [reflexivity|].
  intros b Hb. destruct (Z.eqb_spec (b_id b) k) as [E'|_]; [|reflexivity].
  exfalso. assert (has_booking st k = true); [|congruence].
  apply existsb_key_In. exists b. auto.
Qed.

(** *** Creating a booking *)

Lemma select_designated_car st v c :
  designates_car st v c -> exists c' rows, select_car_by_id st v = Resolves (c' :: rows).
Proof.
  intros [Hc E]. unfold select_car_by_id. rewrite E. simpl.
  destruct (List.filter (fun c' => c_id c' =? c_id c) (cars st)) as [|c' rows] eqn:Hf.
  - exfalso. assert (Hin : In c (List.filter (fun c' => c_id c' =? c_id c) (cars st))).
    { apply filter_In. split; [exact Hc | apply Z.eqb_refl]. }
    rewrite Hf in Hin. destruct Hin.
  - eauto.
Qed.

(** The handler of POST /bookings on a request that names an existing
    car and a date the server accepts, by a caller who is a user. *)
Lemma book_handler_creates user req st c d :
  db_ok st ->
  has_user st (jwt_id user) = true ->
  truthy (field (req_body req) "car_id") = true ->
  truthy (field (req_body req) "travel_date") = true ->
  designates_car st (field (req_body req) "car_id") c ->
  pg_date (field (req_body req) "travel_date") = Resolves (Some d) ->
  bookings_id_seq st < int4_max ->
  book_handler user req st =
    (res_status 201 (MessageBody "Booking created successfully"),
     set_bookings st (bookings_id_seq st + 1)
       (bookings st ++ [{| b_id := bookings_id_seq st + 1;
                           b_user_id := Some (jwt_id user);
                           b_car_id := Some (c_id c);
                           b_travel_date := Some d |}])).
Proof.
  intros Hok Hu Hcar Hdate Hc Hd Hseq. unfold book_handler.
  rewrite Hcar, Hdate. simpl.
  destruct (select_designated_car st _ c Hc) as (c' & rows & ->).
  destruct Hc as [Hin Hid].
  rewrite (insert_booking_resolves st _ _ _ (Some (jwt_id user)) (Some (c_id c)) (Some d));
    auto.
  - simpl. rewrite (has_user_in_int4 st _ Hok Hu). reflexivity.
  - simpl. apply existsb_key_In. exists c. auto.
Qed.

(** C9.  In a database the application has built, for every car of the
    database and every date the server accepts, two POST /bookings
    requests for that car and that date, one after the other, by callers
    the gate has verified and who are users (the same or different ones),
    are both answered 201, and each adds its own row for that car and
    date: nothing checks whether the pair (car_id, travel_date) is already
    booked.  The booking sequence must have two values left. *)
Theorem double_booking (now1 now2 : Z) (req1 req2 : request) (st : db)
    (user1 user2 : claims) (c : car) (d : Z) :
  db_ok st ->
  bookings_id_seq st + 1 < int4_max ->
  authenticateToken JWT_SECRET now1 req1 = inr user1 ->
  authenticateToken JWT_SECRET now2 req2 = inr user2 ->
  has_user st (jwt_id user1) = true -> has_user st (jwt_id user2) = true ->
  truthy (field (req_body req1) "car_id") = true ->
  truthy (field (req_body req2) "car_id") = true ->
  truthy (field (req_body req1) "travel_date") = true ->
  truthy (field (req_body req2) "travel_date") = true ->
  designates_car st (field (req_body req1) "car_id") c ->
  designates_car st (field (req_body req2) "car_id") c ->
  pg_date (field (req_body req1) "travel_date") = Resolves (Some d) ->
  pg_date (field (req_body req2) "travel_date") = Resolves (Some d) ->
  let first := post_bookings JWT_SECRET now1 req1 st in
  let second := post_bookings JWT_SECRET now2 req2 first.2 in
  first.1 = res_status 201 (MessageBody "Booking created successfully")
  /\ second.1 = res_status 201 (MessageBody "Booking created successfully")
  /\ bookings second.2 =
       (bookings st ++
          [{| b_id := bookings_id_seq st + 1; b_user_id := Some (jwt_id user1);
              b_car_id := Some (c_id c); b_travel_date := Some d |};
           {| b_id := bookings_id_seq st + 2; b_user_id := Some (jwt_id user2);
              b_car_id := Some (c_id c); b_travel_date := Some d |}])%list.
Proof.
  intros Hok Hseq Ha1 Ha2 Hu1 Hu2 Hc1 Hc2 Ht1 Ht2 Hd1 Hd2 Hp1 Hp2. simpl.
  unfold post_bookings, protected. rewrite Ha1.
  rewrite (book_handler_creates user1 req1 st c d) by (auto; lia). simpl.
  rewrite Ha2.
  set (st1 := set_bookings st _ _).
  assert (Hok1 : db_ok st1).
  { pose proof (book_handler_ok user1 req1 st Hok) as Hb.
    rewrite (book_handler_creates user1 req1 st c d) in Hb by (auto; lia). exact Hb. }
  rewrite (book_handler_creates user2 req2 st1 c d); auto.
  subst st1. simpl. repeat split. rewrite <- app_assoc. simpl.
  replace (bookings_id_seq st + 1 + 1) with (bookings_id_seq st + 2) by lia.
  reflexivity.
Qed.
End Ownership.

(** ** Accounts *)

Section Accounts.
Context `{PgInput} `{Jose} `{Bcrypt}.
Variable JWT_SECRET : string.

(** C5.  In a database the application has built, for every existing
    user and every name, password and salt, a registration whose email is
    that user's stored email does not succeed (its status is not 201),
    and it leaves the users table, hence that account's stored password
    hash, exactly as it was. *)
Theorem duplicate_email_fails (salt : string) (req : request) (st : db)
    (u : user) (e : string) :
  db_ok st ->
  In u (users st) -> u_email u = Some e ->
  prepareValue (field (req_body req) "email") = Some e ->
  let after := post_register salt req st in
  status after.1 <> 201
  /\ users after.2 = users st
  /\ In u (users after.2).
Proof.
  intros Hok Hu He Hreq. simpl.
  assert (Hgoal : status (post_register salt req st).1 <> 201
                  /\ users (post_register salt req st).2 = users st).
  { unfold post_register.
    destruct (negb (truthy _) || negb (truthy _) || negb (truthy _));
      [simpl; split; [discriminate | reflexivity]|].
    destruct (bcrypt_hash _ _ _) as [hashed|];
      [|simpl; split; [discriminate | reflexivity]].
    destruct (insert_user st _ _ _) as [[[]|] st'] eqn:Hins; simpl.
    - exfalso. revert Hins. unfold insert_user.
      assert (Hv : pg_varchar100 (field (req_body req) "email") = Resolves (Some e)).
      { unfold pg_varchar100. rewrite Hreq, varchar_assign_short; [reflexivity|].
        destruct Hok as [_ _ _ Hfit _ _]. rewrite Forall_forall in Hfit.
        apply (Hfit u); [apply list_elem_of_In; exact Hu | exact He]. }
      assert (Htaken : email_taken st (Some e) = true).
      { apply email_taken_spec, list_elem_of_omap. exists u.
        split; [apply list_elem_of_In; exact Hu | exact He]. }
      rewrite Hv.
      destruct (pg_varchar100 (field (req_body req) "name")) as [n|];
        cbv beta iota delta [mbind outcome_bind]; [|discriminate].
      destruct (nextval (users_id_seq st)) as [k|]; [|discriminate].
      rewrite Htaken, orb_true_r. discriminate.
    - split; [discriminate|]. eapply insert_user_rejects. exact Hins. }
  destruct Hgoal as [Hs Husers]. repeat split; [exact Hs | exact Husers|].
  rewrite Husers. exact Hu.
Qed.

(** *** Login *)

Lemma filter_email_none st s :
  (forall u, In u (users st) -> u_email u <> Some s) ->
  List.filter (fun u => opt_eqb String.eqb (u_email u) s) (users st) = [].
Proof.
  intros Hno. apply filter_none. intros u Hu. specialize (Hno u Hu).
  destruct (u_email u) as [e|]; simpl; [|reflexivity].
  destruct (String.eqb_spec e s); [congruence | reflexivity].
Qed.

Lemma filter_email_unique (l : list user) (U : user) (s : string) :
  NoDup (omap u_email l) -> In U l -> u_email U = Some s ->
  List.filter (fun u => opt_eqb String.eqb (u_email u) s) l = [U].
Proof.
  induction l as [|x l IH]; intros Hnd HU He; [destruct HU|].
  simpl in Hnd. simpl.
  destruct (u_email x) as [ex|] eqn:Hx; simpl in *.
  - apply NoDup_cons in Hnd as [Hnotin Hnd].
    destruct (String.eqb_spec ex s) as [->|Hne].
    + assert (x = U) as ->.
      { destruct HU as [E|HU]; [exact E|]. exfalso. apply Hnotin.
        apply list_elem_of_omap. exists U. split; [apply list_elem_of_In|]; assumption. }
      f_equal. apply filter_none. intros u Hu.
      destruct (u_email u) as [eu|] eqn:Heu; simpl; [|reflexivity].
      destruct (String.eqb_spec eu s) as [->|]; [|reflexivity].
      exfalso. apply Hnotin. apply list_elem_of_omap. exists u.
      split; [apply list_elem_of_In|]; assumption.
    + destruct HU as [->|HU]; [congruence|]. apply IH; assumption.
  - destruct HU as [->|HU]; [congruence|]. apply IH; assumption.
Qed.

(** Where [bcrypt.compare] judges the password, the two failures of a login
    are merged.  In a database the application has built, take two login
    requests that both carry an email and a password: in the first the
    email is that of no user, in the second it is the email of a user and
    [bcrypt.compare] resolves to false on the password.  Both are answered
    alike, 403 "Invalid credentials", and leave the database as it was. *)
Lemma login_failures_merged (now : Z) (st : db) (unknown known : request)
    (U : user) (e : string) :
  db_ok st ->
  truthy (field (req_body unknown) "email") = true ->
  truthy (field (req_body unknown) "password") = true ->
  truthy (field (req_body known) "email") = true ->
  truthy (field (req_body known) "password") = true ->
  (forall u, In u (users st) ->
             u_email u <> prepareValue (field (req_body unknown) "email")) ->
  In U (users st) -> u_email U = Some e ->
  prepareValue (field (req_body known) "email") = Some e ->
  bcrypt_compare (field (req_body known) "password") (u_password U) = Resolves false ->
  post_login JWT_SECRET now unknown st
    = (res_status 403 (ErrorBody "Invalid credentials"), st)
  /\ post_login JWT_SECRET now known st = post_login JWT_SECRET now unknown st.
Proof.
  intros Hok He1 Hp1 He2 Hp2 Hnone HU HUe Hknown Hwrong.
  assert (E1 : post_login JWT_SECRET now unknown st
               = (res_status 403 (ErrorBody "Invalid credentials"), st)).
  { unfold post_login. rewrite He1, Hp1. simpl. unfold select_user_by_email.
    destruct (prepareValue (field (req_body unknown) "email")) as [s|] eqn:Hs;
      [|reflexivity].
    rewrite filter_email_none; [reflexivity|]. exact Hnone. }
  split; [exact E1|]. rewrite E1.
  unfold post_login. rewrite He2, Hp2. simpl. unfold select_user_by_email.
  rewrite Hknown. destruct Hok as [_ _ _ _ Huniq _].
  rewrite (filter_email_unique _ U e Huniq HU HUe). simpl.
  rewrite Hwrong. reflexivity.
Qed.

(** Where [bcrypt.compare] rejects instead of judging, the two failures of a
    login differ: an email of no user is answered 403 before any
    comparison, the email of a user reaches the [catch] and is answered
    500. *)
Lemma login_compare_rejects (now : Z) (st : db) (unknown known : request)
    (U : user) (e : string) :
  db_ok st ->
  truthy (field (req_body unknown) "email") = true ->
  truthy (field (req_body unknown) "password") = true ->
  truthy (field (req_body known) "email") = true ->
  truthy (field (req_body known) "password") = true ->
  (forall u, In u (users st) ->
             u_email u <> prepareValue (field (req_body unknown) "email")) ->
  In U (users st) -> u_email U = Some e ->
  prepareValue (field (req_body known) "email") = Some e ->
  bcrypt_compare (field (req_body known) "password") (u_password U) = Rejects ->
  post_login JWT_SECRET now unknown st
    = (res_status 403 (ErrorBody "Invalid credentials"), st)
  /\ post_login JWT_SECRET now known st
    = (res_status 500 (ErrorBody "Server error during login"), st).
Proof.
  intros Hok He1 Hp1 He2 Hp2 Hnone HU HUe Hknown Hthrows. split.
  - unfold post_login. rewrite He1, Hp1. simpl. unfold select_user_by_email.
    destruct (prepareValue (field (req_body unknown) "email")) as [s|] eqn:Hs;
      [|reflexivity].
    rewrite filter_email_none; [reflexivity|]. exact Hnone.
  - unfold post_login. rewrite He2, Hp2. simpl. unfold select_user_by_email.
    rewrite Hknown. destruct Hok as [_ _ _ _ Huniq _].
    rewrite (filter_email_unique _ U e Huniq HU HUe). simpl.
    rewrite Hthrows. reflexivity.
Qed.

(** C6.  Round trip of issue and verify, on the spec's model of the token
    library, for any serialization of tokens that parses back what it
    writes.  When a login for the user U succeeds at time [now], the answer
    is 200 with a token; verifying that token at any time before
    [now + 3600] gives the claims with U's id and email, issued at [now]
    and expiring exactly 3600 seconds later, and verifying it at
    [now + 3600] or later fails as expired.  The gate agrees: a request
    that carries the token passes with those claims before the expiry
    instant and is answered 403 from that instant on. *)
Theorem token_round_trip (now t : Z) (req carrier : request) (st : db) (U : user)
    (rows : list user) :
  (forall j, parse_compact (compact j) = Some j) ->
  truthy (field (req_body req) "email") = true ->
  truthy (field (req_body req) "password") = true ->
  select_user_by_email st (field (req_body req) "email") = Resolves (U :: rows) ->
  bcrypt_compare (field (req_body req) "password") (u_password U) = Resolves true ->
  exists token,
    post_login JWT_SECRET now req st = (res_json (TokenBody token), st)
    /\ let c := {| jwt_id := u_id U; jwt_email := u_email U;
                   iat := now; exp := now + 3600 |} in
       (t < now + 3600 -> jwt_verify token JWT_SECRET t = inr c)
       /\ (now + 3600 <= t -> jwt_verify token JWT_SECRET t = inl Expired)
       /\ (bearer_token (authorization carrier) = Some token -> token <> "" ->
           (t < now + 3600 -> authenticateToken JWT_SECRET t carrier = inr c)
           /\ (now + 3600 <= t ->
               authenticateToken JWT_SECRET t carrier
               = inl (res_status 403 (ErrorBody "Invalid or expired token")))).
Proof.
  intros Hlaw He Hp Hsel Hcmp.
  exists (jwt_sign (u_id U) (u_email U) JWT_SECRET now). split.
  - unfold post_login. rewrite He, Hp, Hsel. simpl. rewrite Hcmp. reflexivity.
  - assert (Hbefore : t < now + 3600 ->
                      jwt_verify (jwt_sign (u_id U) (u_email U) JWT_SECRET now) JWT_SECRET t
                      = inr {| jwt_id := u_id U; jwt_email := u_email U;
                               iat := now; exp := now + 3600 |}).
    { intros Hlt. unfold jwt_verify, jwt_sign. rewrite Hlaw. simpl.
      rewrite String.eqb_refl. simpl. unfold expires_in_1h.
      destruct (Z.leb_spec (now + 3600) t); [lia | reflexivity]. }
    assert (Hafter : now + 3600 <= t ->
                     jwt_verify (jwt_sign (u_id U) (u_email U) JWT_SECRET now) JWT_SECRET t
                     = inl Expired).
    { intros Hge. unfold jwt_verify, jwt_sign. rewrite Hlaw. simpl.
      rewrite String.eqb_refl. simpl. unfold expires_in_1h.
      destruct (Z.leb_spec (now + 3600) t); [reflexivity | lia]. }
    simpl. split; [exact Hbefore|]. split; [exact Hafter|].
    intros Hcarried Hne. unfold authenticateToken. rewrite Hcarried. simpl.
    destruct (String.eqb_spec (jwt_sign (u_id U) (u_email U) JWT_SECRET now) "");
      [contradiction|].
    split; intros Ht.
    + rewrite (Hbefore Ht). reflexivity.
    + rewrite (Hafter Ht). reflexivity.
Qed.

(** *** Presence checks *)

(** C10, as amended.  The presence checks are JavaScript truthiness, so a
    field that is present but falsy counts as missing: POST /cars with the
    number 0 as price, POST /bookings (past the gate) with the number 0 as
    car_id, POST /register and POST /login with an empty string in one of
    their fields are all answered 400 and leave the database as it was.
    In particular no request whose price is the number 0 adds a car. *)
Theorem falsy_fields_rejected (now : Z) (salt : string) (req : request) (st : db) :
  (field (req_body req) "price" = JNum 0 ->
   post_cars req st
     = (res_status 400 (ErrorBody "Name, details and price are required"), st))
  /\ (field (req_body req) "car_id" = JNum 0 ->
      forall user, authenticateToken JWT_SECRET now req = inr user ->
      post_bookings JWT_SECRET now req st
        = (res_status 400 (ErrorBody "car_id and travel_date are required"), st))
  /\ (field (req_body req) "name" = JStr ""
      \/ field (req_body req) "email" = JStr ""
      \/ field (req_body req) "password" = JStr "" ->
      post_register salt req st
        = (res_status 400 (ErrorBody "Name, email and password are required"), st))
  /\ (field (req_body req) "email" = JStr ""
      \/ field (req_body req) "password" = JStr "" ->
      post_login JWT_SECRET now req st
        = (res_status 400 (ErrorBody "Email and password are required"), st)).
Proof.
  repeat split.
  - intros E. unfold post_cars. rewrite E. simpl. rewrite !orb_true_r. reflexivity.
  - intros E user Hauth. unfold post_bookings, protected. rewrite Hauth.
    unfold book_handler. rewrite E. reflexivity.
  - intros [E|[E|E]]; unfold post_register; rewrite E; simpl;
      rewrite ?orb_true_r; reflexivity.
  - intros [E|E]; unfold post_login; rewrite E; simpl; rewrite ?orb_true_r; reflexivity.
Qed.
End Accounts.

(** ** The properties on the sample instance *)

Module Scenarios.
Import Sample.

Lemma db1_ok : db_ok db1.
Proof. apply run_ok, empty_db_ok. Qed.

Lemma db2_ok : db_ok db2.
Proof. apply (app_ok secret POST_bookings), db1_ok. Qed.

(** The scenario of the specification: Ana registers, logs in, sees no
    booking, books the Civic and then sees one booking of the Civic. *)
Example ana_books_the_civic :
  (app secret GET_bookings (at_time 2050) (req (bearer ana_token) "" []) db1).1
    = res_json (BookingsBody [])
  /\ (app secret POST_bookings (at_time 2100) (req (bearer ana_token) "" booking_2025) db1).1
    = res_status 201 (MessageBody "Booking created successfully")
  /\ (app secret GET_bookings (at_time 2200) (req (bearer ana_token) "" []) db2).1
    = res_json (BookingsBody
         [{| br_id := 1; br_travel_date := Some 20250101; br_car_name := Some "Civic";
             br_car_details := Some "sedan";
             br_car_price := Some (numeric_of_Z 20000) |}]).
Proof. vm_compute. auto. Qed.

Lemma no_car_9999 : no_such_car db2 (JNum 9999).
Proof.
  intros c [Hin E]. vm_compute in Hin. destruct Hin as [<-|[]].
  vm_compute in E. discriminate.
Qed.

(** C1, as stated, fails: Ana, authenticated, asks for the car 9999,
    which does not exist, and gives no travel_date; the answer is 400
    "car_id and travel_date are required", not 404. *)
Lemma absent_car_without_date :
  authenticateToken secret 2200 absent_car_no_date = inr ana_claims
  /\ no_such_car db2 (field (req_body absent_car_no_date) "car_id")
  /\ post_bookings secret 2200 absent_car_no_date db2
     = (res_status 400 (ErrorBody "car_id and travel_date are required"), db2)
  /\ status (post_bookings secret 2200 absent_car_no_date db2).1 <> 404.
Proof.
  split; [vm_compute; reflexivity|].
  split; [exact no_car_9999|].
  split; [vm_compute; reflexivity | vm_compute; discriminate].
Qed.

Lemma absent_car_booking_witness :
  post_bookings secret 2200 absent_car db2
    = (res_status 404 (ErrorBody "Car not found"), db2).
Proof.
  assert (Hauth : authenticateToken secret 2200 absent_car = inr ana_claims)
    by (vm_compute; reflexivity).
  exact (absent_car_booking secret 2200 absent_car db2 ana_claims Hauth no_car_9999).
Defined.


Lemma foreign_booking_hidden_witness :
  get_booking secret 2200 bob_reads_1 db2
    = (res_status 404 (ErrorBody "Booking not found"), db2)
  /\ get_booking secret 2200 bob_reads_77 db2 = get_booking secret 2200 bob_reads_1 db2
  /\ status (get_booking secret 2200 bob_reads_1 db2).1 <> 403.
Proof.
  apply (foreign_booking_hidden secret 2200 db2 ana_booking 1 bob_claims
           bob_reads_1 bob_reads_77 77).
  - exact db2_ok.
  - vm_compute. left. reflexivity.
  - reflexivity.
  - vm_compute. discriminate.
  - vm_compute. reflexivity.
  - vm_compute. reflexivity.
  - vm_compute. reflexivity.
  - vm_compute. reflexivity.
  - vm_compute. reflexivity.
  - vm_compute. reflexivity.
Defined.

Lemma gate_outcomes_witness :
  post_bookings secret 2200 no_header db2
    = (res_status 401 (ErrorBody "Token missing"), db2)
  /\ get_bookings secret 2200 garbage db2
    = (res_status 403 (ErrorBody "Invalid or expired token"), db2)
  /\ get_booking secret 2200 forged db2
    = (res_status 403 (ErrorBody "Invalid or expired token"), db2)
  /\ get_bookings secret 5600 ana_lists db2
    = (res_status 403 (ErrorBody "Invalid or expired token"), db2).
Proof.
  split; [|split; [|split]].
  - apply (gate_outcomes secret 2200 no_header db2). reflexivity.
  - apply (proj2 (gate_outcomes secret 2200 garbage db2) "abc" Malformed);
      [reflexivity | discriminate | vm_compute; reflexivity].
  - apply (proj2 (gate_outcomes secret 2200 forged db2)
             "1.1.2000.5600.sana@x.com" BadSignature);
      [reflexivity | discriminate | vm_compute; reflexivity].
  - apply (proj2 (gate_outcomes secret 5600 ana_lists db2) ana_token Expired);
      [vm_compute; reflexivity | vm_compute; discriminate | vm_compute; reflexivity].
Defined.

Lemma duplicate_email_fails_witness :
  status (post_register "pepper" ana_again db1).1 <> 201
  /\ users (post_register "pepper" ana_again db1).2 = users db1
  /\ In ana_row (users (post_register "pepper" ana_again db1).2).
Proof.
  apply (duplicate_email_fails "pepper" ana_again db1 ana_row "ana@x.com").
  - exact db1_ok.
  - vm_compute. left. reflexivity.
  - reflexivity.
  - vm_compute. reflexivity.
Defined.

Lemma get_put_positive p rest : get_positive (put_positive p rest) = Some (p, rest).
Proof. induction p as [q IH|q IH|]; simpl; rewrite ?IH; reflexivity. Qed.

Lemma get_put_Z z rest : get_Z (put_Z z rest) = Some (z, rest).
Proof. destruct z; simpl; rewrite ?get_put_positive; reflexivity. Qed.

Lemma get_put_string s rest : get_string (put_string s rest) = Some (s, rest).
Proof. induction s as [|c s IH]; simpl; rewrite ?IH; reflexivity. Qed.

Lemma get_put_email e rest : get_email (put_email e rest) = Some (e, rest).
Proof. destruct e; simpl; rewrite ?get_put_string; reflexivity. Qed.

Lemma strict_parse_compact j : strict_parse (strict_compact j) = Some j.
Proof.
  destruct j as [[id email i e] sig]. unfold strict_parse, strict_compact. simpl.
  rewrite !get_put_Z, get_put_email, get_put_string. reflexivity.
Qed.

Lemma token_round_trip_witness :
  exists token,
    @post_login pg strict_jose bcrypt secret 2000 ana_logs_in db1
      = (res_json (TokenBody token), db1)
    /\ @jwt_verify strict_jose token secret 5599 = inr ana_claims
    /\ @authenticateToken strict_jose secret 5599 ana_strict_lists = inr ana_claims.
Proof.
  destruct (@token_round_trip pg strict_jose bcrypt secret 2000 5599 ana_logs_in
              ana_strict_lists db1 ana_row [])
    as (token & Hlogin & Hbefore & _ & Hgate).
  - exact strict_parse_compact.
  - reflexivity.
  - reflexivity.
  - vm_compute. reflexivity.
  - vm_compute. reflexivity.
  - exists token. split; [exact Hlogin|]. split; [apply Hbefore; lia|].
    assert (E : token = ana_strict_token).
    { assert (L : @post_login pg strict_jose bcrypt secret 2000 ana_logs_in db1
                  = (res_json (TokenBody ana_strict_token), db1))
        by (vm_compute; reflexivity).
      rewrite L in Hlogin. inversion Hlogin. reflexivity. }
    subst token. apply Hgate; [vm_compute; reflexivity | vm_compute; discriminate | lia].
Defined.

Lemma login_failures_merged_witness :
  post_login secret 2000 eve_logs_in db1
    = (res_status 403 (ErrorBody "Invalid credentials"), db1)
  /\ post_login secret 2000 ana_mistypes db1 = post_login secret 2000 eve_logs_in db1.
Proof.
  apply (login_failures_merged secret 2000 db1 eve_logs_in ana_mistypes
           ana_row "ana@x.com").
  - exact db1_ok.
  - reflexivity.
  - reflexivity.
  - reflexivity.
  - reflexivity.
  - intros u Hu. vm_compute in Hu. destruct Hu as [<-|[<-|[]]]; vm_compute; discriminate.
  - vm_compute. left. reflexivity.
  - reflexivity.
  - vm_compute. reflexivity.
  - vm_compute. reflexivity.
Defined.

Lemma login_compare_rejects_witness :
  post_login secret 2000 eve_sends_number db1
    = (res_status 403 (ErrorBody "Invalid credentials"), db1)
  /\ post_login secret 2000 ana_sends_number db1
    = (res_status 500 (ErrorBody "Server error during login"), db1).
Proof.
  apply (login_compare_rejects secret 2000 db1 eve_sends_number ana_sends_number
           ana_row "ana@x.com").
  - exact db1_ok.
  - reflexivity.
  - reflexivity.
  - reflexivity.
  - reflexivity.
  - intros u Hu. vm_compute in Hu. destruct Hu as [<-|[<-|[]]]; vm_compute; discriminate.
  - vm_compute. left. reflexivity.
  - reflexivity.
  - vm_compute. reflexivity.
  - vm_compute. reflexivity.
Defined.

(** C8.  The login failures are not merged for every request.  With the
    JSON number 12345 as password, which [bcrypt.compare] refuses instead
    of judging, the login for ana@x.com, a registered email, is answered
    500 "Server error during login", and the login for eve@x.com, an email
    of no user, is answered 403 "Invalid credentials": the two answers
    tell the caller which emails are registered. *)
Theorem login_failures_told_apart :
  In ana_row (users db1)
  /\ (forall u, In u (users db1) -> u_email u <> Some "eve@x.com")
  /\ post_login secret 2000 ana_sends_number db1
     = (res_status 500 (ErrorBody "Server error during login"), db1)
  /\ post_login secret 2000 eve_sends_number db1
     = (res_status 403 (ErrorBody "Invalid credentials"), db1)
  /\ status (post_login secret 2000 ana_sends_number db1).1
     <> status (post_login secret 2000 eve_sends_number db1).1.
Proof.
  split; [vm_compute; left; reflexivity|].
  split; [intros u Hu; vm_compute in Hu;
          destruct Hu as [<-|[<-|[]]]; vm_compute; discriminate|].
  split; [vm_compute; reflexivity|].
  split; [vm_compute; reflexivity | vm_compute; discriminate].
Qed.

Lemma double_booking_witness :
  (post_bookings secret 2100 ana_books db1).1
    = res_status 201 (MessageBody "Booking created successfully")
  /\ (post_bookings secret 2101 bob_books (post_bookings secret 2100 ana_books db1).2).1
    = res_status 201 (MessageBody "Booking created successfully")
  /\ bookings (post_bookings secret 2101 bob_books
                 (post_bookings secret 2100 ana_books db1).2).2
     = [ana_booking;
        {| b_id := 2; b_user_id := Some 2; b_car_id := Some 1;
           b_travel_date := Some 20250101 |}].
Proof.
  apply (double_booking secret 2100 2101 ana_books bob_books db1
           ana_claims bob_claims civic_row 20250101).
  - exact db1_ok.
  - vm_compute. reflexivity.
  - vm_compute. reflexivity.
  - vm_compute. reflexivity.
  - vm_compute. reflexivity.
  - vm_compute. reflexivity.
  - reflexivity.
  - reflexivity.
  - reflexivity.
  - reflexivity.
  - split; [vm_compute; left; reflexivity | vm_compute; reflexivity].
  - split; [vm_compute; left; reflexivity | vm_compute; reflexivity].
  - vm_compute. reflexivity.
  - vm_compute. reflexivity.
Defined.

Lemma falsy_fields_rejected_witness :
  post_cars free_car db1
    = (res_status 400 (ErrorBody "Name, details and price are required"), db1)
  /\ post_bookings secret 2200 car_zero db1
    = (res_status 400 (ErrorBody "car_id and travel_date are required"), db1)
  /\ post_register "pepper" no_password db1
    = (res_status 400 (ErrorBody "Name, email and password are required"), db1)
  /\ post_login secret 2200 no_password db1
    = (res_status 400 (ErrorBody "Email and password are required"), db1).
Proof.
  split; [|split; [|split]].
  - apply (falsy_fields_rejected secret 2200 "pepper" free_car db1). reflexivity.
  - apply (proj1 (proj2 (falsy_fields_rejected secret 2200 "pepper" car_zero db1))
             eq_refl ana_claims).
    vm_compute. reflexivity.
  - apply (proj1 (proj2 (proj2 (falsy_fields_rejected secret 2200 "pepper"
                                  no_password db1)))).
    right. right. reflexivity.
  - apply (proj2 (proj2 (proj2 (falsy_fields_rejected secret 2200 "pepper"
                                  no_password db1)))).
    right. reflexivity.
Defined.

(** C10, as stated, fails in its last part: a car with price 0 can be
    added.  Sent as the string "0" the price is truthy, passes the
    presence check, and the server stores the number zero. *)
Lemma zero_price_car_added :
  truthy (field (req_body free_car_as_text) "price") = true
  /\ (post_cars free_car_as_text db1).1
     = res_status 201 (MessageBody "Car added successfully")
  /\ cars (post_cars free_car_as_text db1).2
     = (cars db1 ++ [{| c_id := 2; c_name := Some "Civic"; c_details := Some "sedan";
                        c_price := Some (numeric_of_Z 0) |}])%list
  /\ numeric_is_zero (numeric_of_Z 0) = true.
Proof. vm_compute. auto. Qed.
End Scenarios.

(** ** The catalog *)

Section Catalog.
Context `{PgInput}.

Lemma insert_by_perm {A} (key : A -> Z) le (x : A) (l : list A) :
  Permutation (insert_by key le x l) (x :: l).
Proof.
  induction l as [|y l IH]; simpl; [reflexivity|].
  destruct (le (key x) (key y)); [reflexivity|].
  rewrite IH. apply perm_swap.
Qed.

Lemma order_by_perm {A} (key : A -> Z) le (l : list A) :
  Permutation (order_by key le l) l.
Proof.
  unfold order_by. induction l as [|x l IH]; simpl; [reflexivity|].
  rewrite insert_by_perm, IH. reflexivity.
Qed.

Lemma insert_by_sorted {A} (key : A -> Z) (le : Z -> Z -> bool) (x : A) (l : list A) :
  (forall a b, le a b = false -> le b a = true) ->
  Sorted (fun a b => le (key a) (key b) = true) l ->
  Sorted (fun a b => le (key a) (key b) = true) (insert_by key le x l).
Proof.
  intros Htot. induction 1 as [|y l Hs IH Hhd]; simpl.
  - constructor; constructor.
  - destruct (le (key x) (key y)) eqn:E.
    + constructor; [constructor; assumption|]. constructor. exact E.
    + constructor; [exact IH|].
      destruct l as [|z l]; simpl.
      * constructor. apply Htot, E.
      * destruct (le (key x) (key z)); constructor.
        -- apply Htot, E.
        -- inversion Hhd; assumption.
Qed.

Lemma order_by_sorted {A} (key : A -> Z) (le : Z -> Z -> bool) (l : list A) :
  (forall a b, le a b = false -> le b a = true) ->
  Sorted (fun a b => le (key a) (key b) = true) (order_by key le l).
Proof.
  intros Htot. unfold order_by. induction l as [|x l IH]; simpl; [constructor|].
  apply insert_by_sorted; assumption.
Qed.

Lemma filter_key_unique {A} (key : A -> Z) (l : list A) (x : A) :
  NoDup (List.map key l) -> In x l ->
  List.filter (fun y => key y =? key x) l = [x].
Proof.
  induction l as [|z l IH]; intros Hnd Hx; [destruct Hx|].
  simpl in Hnd. apply NoDup_cons in Hnd as [Hz Hnd]. simpl.
  destruct (Z.eqb_spec (key z) (key x)) as [E|Hne].
  - assert (z = x) as ->.
    { destruct Hx as [E'|Hx]; [exact E'|]. exfalso. apply Hz.
      apply list_elem_of_In. rewrite E. apply in_map. exact Hx. }
    f_equal. apply filter_none. intros y Hy.
    destruct (Z.eqb_spec (key y) (key x)) as [E'|]; [|reflexivity].
    exfalso. apply Hz. apply list_elem_of_In. rewrite <- E'. apply in_map. exact Hy.
  - destruct Hx as [->|Hx]; [congruence|]. apply IH; assumption.
Qed.

(** X2.  In a database the application has built, GET /cars/:id with the id
    of a car of the table answers 200 with exactly that car and leaves the
    database as it was. *)
Theorem get_car_found (req : request) (st : db) (c : car) :
  db_ok st ->
  designates_car st (JStr (params_id req)) c ->
  get_car req st = (res_json (CarBody c), st).
Proof.
  intros [_ (_ & _ & Hnd) _ _ _ _] [Hc Hid]. unfold get_car, select_car_by_id.
  rewrite Hid. simpl. rewrite (filter_key_unique c_id _ c Hnd Hc). reflexivity.
Qed.

(** X3.  GET /cars/:id with an id that designates no car never answers
    200: it answers 404 "Car not found" when the id is a well-formed
    integer and 500 "Error fetching car" when it is not (the query
    rejects); the database is untouched. *)
Theorem get_car_absent (req : request) (st : db) :
  no_such_car st (JStr (params_id req)) ->
  get_car req st =
    (match int4in (params_id req) with
     | Some _ => res_status 404 (ErrorBody "Car not found")
     | None => res_status 500 (ErrorBody "Error fetching car")
     end, st).
Proof.
  intros Hno. unfold get_car, select_car_by_id. simpl.
  destruct (int4in (params_id req)) as [k|] eqn:E; simpl; [|reflexivity].
  rewrite filter_none; [reflexivity|].
  intros c Hc. destruct (Z.eqb_spec (c_id c) k) as [Hk|]; [|reflexivity].
  exfalso. apply (Hno c). split; [exact Hc|]. simpl. rewrite E, Hk. reflexivity.
Qed.


End Catalog.

(** ** Reading bookings *)

Section Reads.
Context `{PgInput} `{Jose} `{Bcrypt}.
Variable JWT_SECRET : string.

Lemma opt_eqb_Z (x : option Z) (k : Z) : opt_eqb Z.eqb x k = true <-> x = Some k.
Proof.
  destruct x as [a|]; simpl; [|split; discriminate].
  rewrite Z.eqb_eq. split; congruence.
Qed.

Lemma in_join_car st b r :
  In r (join_car st b) <->
  exists c, In c (cars st) /\ b_car_id b = Some (c_id c)
            /\ r = {| br_id := b_id b; br_travel_date := b_travel_date b;
                      br_car_name := c_name c; br_car_details := c_details c;
                      br_car_price := c_price c |}.
Proof.
  unfold join_car. rewrite in_map_iff. split.
  - intros (c & <- & Hc). apply filter_In in Hc as [Hc E]. apply opt_eqb_Z in E. eauto.
  - intros (c & Hc & E & ->). exists c. split; [reflexivity|].
    apply filter_In. split; [exact Hc | apply opt_eqb_Z, E].
Qed.

(** X5.  GET /bookings past the gate never touches the database, and what
    it lists is only the caller's: every entry of the list it sends is the
    join of a booking whose user_id is the id of the verified token with the
    car that booking references; the entries come in descending order of
    booking id. *)
Theorem get_bookings_only_own (now : Z) (req : request) (st : db) (user : claims)
    (rows : list booking_row) :
  authenticateToken JWT_SECRET now req = inr user ->
  body (get_bookings JWT_SECRET now req st).1 = BookingsBody rows ->
  (get_bookings JWT_SECRET now req st).2 = st
  /\ Sorted (fun a b => br_id b <= br_id a) rows
  /\ (forall r, In r rows ->
        exists b c,
          In b (bookings st) /\ In c (cars st)
          /\ b_user_id b = Some (jwt_id user)
          /\ b_car_id b = Some (c_id c)
          /\ r = {| br_id := b_id b; br_travel_date := b_travel_date b;
                    br_car_name := c_name c; br_car_details := c_details c;
                    br_car_price := c_price c |}).
Proof.
  intros Hauth. unfold get_bookings, protected. rewrite Hauth.
  rewrite bookings_handler_state. unfold bookings_handler, select_bookings_of. simpl.
  destruct (in_int4 (jwt_id user)); simpl; [|discriminate].
  intros E. inversion E; subst rows; clear E. split; [reflexivity|]. split.
  - eapply Sorted_ind with (P := fun l => Sorted (fun a b => br_id b <= br_id a) l);
      [constructor | | apply (order_by_sorted br_id Z.geb)].
    + intros a l _ IH Hhd. constructor; [exact IH|].
      destruct Hhd; constructor. apply Z.geb_le. assumption.
    + intros a b E. rewrite Z.geb_leb in *. apply Z.leb_le. apply Z.leb_gt in E. lia.
  - intros r Hr.
    apply (Permutation_in _ (order_by_perm br_id Z.geb _)) in Hr.
    apply in_flat_map in Hr as (b & Hb & Hr).
    apply filter_In in Hb as [Hb Hu]. apply opt_eqb_Z in Hu.
    apply in_join_car in Hr as (c & Hc & Hcar & ->).
    exists b, c. auto.
Qed.



(** X7.  In a database the application has built, GET /bookings/:id by the
    verified owner of the booking answers 200 with that booking joined with
    its car and with the owner's name and email, and leaves the database as
    it was. *)
Theorem own_booking_shown (now : Z) (req : request) (st : db) (caller : claims)
    (B : booking) (c : car) (u : user) :
  db_ok st ->
  authenticateToken JWT_SECRET now req = inr caller ->
  pg_int4 (JStr (params_id req)) = Resolves (Some (b_id B)) ->
  In B (bookings st) -> In c (cars st) -> In u (users st) ->
  b_user_id B = Some (jwt_id caller) -> u_id u = jwt_id caller ->
  b_car_id B = Some (c_id c) ->
  get_booking JWT_SECRET now req st =
    (res_json (BookingBody
       {| bd_row := {| br_id := b_id B; br_travel_date := b_travel_date B;
                       br_car_name := c_name c; br_car_details := c_details c;
                       br_car_price := c_price c |};
          bd_user_name := u_name u; bd_user_email := u_email u |}), st).
Proof.
  intros Hok Hauth Hid HB Hc Hu Hown Huid Hcar.
  assert (Huser : has_user st (jwt_id caller) = true)
    by (apply existsb_key_In; exists u; auto).
  pose proof (has_user_in_int4 st _ Hok Huser) as Hrange.
  destruct Hok as [(_ & _ & Hnu) (_ & _ & Hnc) (_ & _ & Hnb) _ _ _].
  unfold get_booking, protected. rewrite Hauth.
  unfold booking_handler, select_booking. rewrite Hid. simpl. rewrite Hrange. simpl.
  assert (Fb : List.filter (fun b => (b_id b =? b_id B)
                                     && opt_eqb Z.eqb (b_user_id b) (jwt_id caller))
                 (bookings st) = [B]).
  { rewrite <- (filter_key_unique b_id (bookings st) B Hnb HB).
    apply filter_ext_in. intros b Hb.
    destruct (Z.eqb_spec (b_id b) (b_id B)) as [E|]; [|reflexivity].
    rewrite (key_determines_row b_id _ b B Hnb Hb HB E), Hown. simpl.
    rewrite Z.eqb_refl. reflexivity. }
  rewrite Fb. simpl. rewrite app_nil_r. unfold join_car. rewrite Hcar. simpl.
  assert (Fc : List.filter (fun c' => c_id c =? c_id c') (cars st) = [c]).
  { rewrite <- (filter_key_unique c_id (cars st) c Hnc Hc).
    apply filter_ext. intros c'. apply Z.eqb_sym. }
  rewrite Fc. simpl. rewrite app_nil_r. unfold join_user. rewrite Hown. simpl.
  assert (Fu : List.filter (fun u' => jwt_id caller =? u_id u') (users st) = [u]).
  { rewrite <- (filter_key_unique u_id (users st) u Hnu Hu), Huid.
    apply filter_ext. intros u'. apply Z.eqb_sym. }
  rewrite Fu. reflexivity.
Qed.
End Reads.

(** ** What requests do to the database *)

Section Effects.
Context `{PgInput} `{Jose} `{Bcrypt}.
Variable JWT_SECRET : string.

Lemma get_bookings_state now req st : (get_bookings JWT_SECRET now req st).2 = st.
Proof.
  unfold get_bookings, protected.
  destruct (authenticateToken _ _ _); [reflexivity | apply bookings_handler_state].
Qed.

Lemma get_booking_state now req st : (get_booking JWT_SECRET now req st).2 = st.
Proof.
  unfold get_booking, protected.
  destruct (authenticateToken _ _ _); [reflexivity | apply booking_handler_state].
Qed.

(** X8.  A request answered with a client error (a status from 400 to 499:
    400, 401, 403 or 404) has left the database exactly as it was, on every
    route. *)
Theorem client_errors_persist_nothing (r : route) (w : world) (req : request) (st : db) :
  400 <= status (app JWT_SECRET r w req st).1 < 500 ->
  (app JWT_SECRET r w req st).2 = st.
Proof.
  destruct r; simpl.
  - unfold post_register.
    destruct (negb (truthy _) || negb (truthy _) || negb (truthy _)); [reflexivity|].
    destruct (bcrypt_hash _ _ _); [|reflexivity].
    destruct (insert_user st _ _ _) as [[[]|] st']; simpl; lia.
  - intros _. apply post_login_state.
  - reflexivity.
  - intros _. apply get_car_state.
  - unfold post_cars.
    destruct (negb (truthy _) || negb (truthy _) || negb (truthy _)); [reflexivity|].
    destruct (insert_car st _ _ _) as [[[]|] st']; simpl; lia.
  - intros _. unfold get_bookings, protected.
    destruct (authenticateToken _ _ _); [reflexivity | apply bookings_handler_state].
  - intros _. unfold get_booking, protected.
    destruct (authenticateToken _ _ _); [reflexivity | apply booking_handler_state].
  - unfold post_bookings, protected.
    destruct (authenticateToken _ _ _) as [res|caller]; [reflexivity|].
    unfold book_handler.
    destruct (negb (truthy _) || negb (truthy _)); [reflexivity|].
    destruct (select_car_by_id st _) as [[|c rows]|]; try reflexivity.
    destruct (insert_booking st _ _ _) as [[[]|] st']; simpl; lia.
Qed.

(** X9.  POST /login and the four GET routes never change the database,
    whatever they answer. *)
Theorem reads_change_nothing (r : route) (w : world) (req : request) (st : db) :
  r <> POST_register -> r <> POST_cars -> r <> POST_bookings ->
  (app JWT_SECRET r w req st).2 = st.
Proof.
  intros Hr Hc Hb. destruct r; try contradiction; simpl.
  - apply post_login_state.
  - reflexivity.
  - apply get_car_state.
  - unfold get_bookings, protected.
    destruct (authenticateToken _ _ _); [reflexivity | apply bookings_handler_state].
  - unfold get_booking, protected.
    destruct (authenticateToken _ _ _); [reflexivity | apply booking_handler_state].
Qed.

Lemma insert_user_prefix st name email password :
  users st `prefix_of` users (insert_user st name email password).2.
Proof.
  unfold insert_user.
  destruct (pg_varchar100 name); simpl; [|reflexivity].
  destruct (pg_varchar100 email); simpl; [|reflexivity].
  destruct (nextval (users_id_seq st)) as [k|]; simpl; [|reflexivity].
  destruct (has_user st k || email_taken st _); simpl; [reflexivity|].
  apply prefix_app_r. reflexivity.
Qed.

Lemma insert_car_prefix st name details price :
  cars st `prefix_of` cars (insert_car st name details price).2.
Proof.
  unfold insert_car. destruct (pg_numeric price); simpl; [|reflexivity].
  destruct (pg_varchar100 name); simpl; [|reflexivity].
  destruct (nextval (cars_id_seq st)) as [k|]; simpl; [|reflexivity].
  destruct (has_car st k); simpl; [reflexivity|].
  apply prefix_app_r. reflexivity.
Qed.

Lemma post_register_tables salt req st :
  users st `prefix_of` users (post_register salt req st).2
  /\ cars (post_register salt req st).2 = cars st.
Proof.
  unfold post_register.
  destruct (negb (truthy _) || negb (truthy _) || negb (truthy _)); [split; reflexivity|].
  destruct (bcrypt_hash _ _ _) as [h|]; [|split; reflexivity].
  pose proof (insert_user_prefix st (field (req_body req) "name")
                (field (req_body req) "email") (JStr h)) as Hp.
  destruct (insert_user_frame st (field (req_body req) "name")
              (field (req_body req) "email") (JStr h)) as (Hc & _).
  destruct (insert_user st _ _ _) as [[[]|] st']; split; assumption.
Qed.

Lemma post_cars_tables req st :
  users (post_cars req st).2 = users st
  /\ cars st `prefix_of` cars (post_cars req st).2.
Proof.
  unfold post_cars.
  destruct (negb (truthy _) || negb (truthy _) || negb (truthy _)); [split; reflexivity|].
  pose proof (insert_car_prefix st (field (req_body req) "name")
                (field (req_body req) "details") (field (req_body req) "price")) as Hp.
  destruct (insert_car_frame st (field (req_body req) "name")
              (field (req_body req) "details") (field (req_body req) "price")) as (Hu & _).
  destruct (insert_car st _ _ _) as [[[]|] st']; split; assumption.
Qed.

Lemma book_handler_tables caller req st :
  users (book_handler caller req st).2 = users st
  /\ cars (book_handler caller req st).2 = cars st.
Proof.
  unfold book_handler.
  destruct (negb (truthy _) || negb (truthy _)); [split; reflexivity|].
  destruct (select_car_by_id st _) as [[|c rows]|]; try (split; reflexivity).
  destruct (insert_booking_frame st (JNum (jwt_id caller)) (field (req_body req) "car_id")
              (field (req_body req) "travel_date")) as (Hu & Hc & _).
  destruct (insert_booking st _ _ _) as [[[]|] st']; split; assumption.
Qed.

(** One request removes and changes no row: each table of the database it
    leaves starts with the table as it was. *)
Lemma app_append_only r w req st :
  users st `prefix_of` users (app JWT_SECRET r w req st).2
  /\ cars st `prefix_of` cars (app JWT_SECRET r w req st).2
  /\ bookings st `prefix_of` bookings (app JWT_SECRET r w req st).2.
Proof.
  split; [|split].
  - destruct r; simpl; rewrite ?post_login_state, ?get_car_state; try reflexivity.
    + apply post_register_tables.
    + destruct (post_cars_tables req st) as [-> _]. reflexivity.
    + unfold get_bookings, protected.
      destruct (authenticateToken _ _ _); [reflexivity|].
      rewrite bookings_handler_state. reflexivity.
    + unfold get_booking, protected.
      destruct (authenticateToken _ _ _); [reflexivity|].
      rewrite booking_handler_state. reflexivity.
    + unfold post_bookings, protected.
      destruct (authenticateToken _ _ _) as [res|caller]; [reflexivity|].
      destruct (book_handler_tables caller req st) as [-> _]. reflexivity.
  - destruct r; simpl; rewrite ?post_login_state, ?get_car_state; try reflexivity.
    + destruct (post_register_tables (entropy w) req st) as [_ ->]. reflexivity.
    + apply post_cars_tables.
    + unfold get_bookings, protected.
      destruct (authenticateToken _ _ _); [reflexivity|].
      rewrite bookings_handler_state. reflexivity.
    + unfold get_booking, protected.
      destruct (authenticateToken _ _ _); [reflexivity|].
      rewrite booking_handler_state. reflexivity.
    + unfold post_bookings, protected.
      destruct (authenticateToken _ _ _) as [res|caller]; [reflexivity|].
      destruct (book_handler_tables caller req st) as [_ ->]. reflexivity.
  - destruct (app_bookings JWT_SECRET r w req st) as [->|(_ & _ & b & _ & -> & _)];
      [reflexivity | apply prefix_app_r; reflexivity].
Qed.

(** X10.  Rows are only ever appended: after any sequence of requests,
    from any database, each of the three tables still begins with the rows
    it had, unchanged and in the same order; no request updates or deletes
    a user, a car or a booking. *)
Theorem rows_are_kept (trace : list (route * world * request)) (st : db) :
  users st `prefix_of` users (run JWT_SECRET trace st)
  /\ cars st `prefix_of` cars (run JWT_SECRET trace st)
  /\ bookings st `prefix_of` bookings (run JWT_SECRET trace st).
Proof.
  revert st. induction trace as [|[[r w] req] rest IH]; intros st; simpl.
  - repeat split; reflexivity.
  - destruct (app_append_only r w req st) as (Hu & Hc & Hb).
    destruct (IH (app JWT_SECRET r w req st).2) as (Hu' & Hc' & Hb').
    repeat split; etrans; eassumption.
Qed.
End Effects.

(** ** More on accounts *)

Section Registration.
Context `{PgInput} `{Jose} `{Bcrypt}.
Variable JWT_SECRET : string.

Lemma insert_user_resolves st name email password st' :
  insert_user st name email password = (Resolves tt, st') ->
  exists u,
    users st' = (users st ++ [u])%list
    /\ u_id u = users_id_seq st + 1
    /\ pg_varchar100 name = Resolves (u_name u)
    /\ pg_varchar100 email = Resolves (u_email u)
    /\ u_password u = prepareValue password
    /\ email_taken st (u_email u) = false.
Proof.
  unfold insert_user.
  destruct (pg_varchar100 name) as [n|]; simpl; [|discriminate].
  destruct (pg_varchar100 email) as [e|]; simpl; [|discriminate].
  destruct (nextval (users_id_seq st)) as [k|] eqn:Hk; [|discriminate].
  apply nextval_resolves in Hk as [-> _].
  destruct (has_user st _ || email_taken st e) eqn:Hchk; intros E; inversion E; subst.
  apply orb_false_iff in Hchk as [_ Htaken].
  eexists. simpl. repeat split; try reflexivity. exact Htaken.
Qed.

(** X11.  When POST /register answers 201, the users table has gained
    exactly one row, under the next id of the sequence, with the name and
    email that were sent, an email no earlier user has, and as password
    the value [bcrypt.hash] gave for the password sent with cost 10; the
    other two tables are as they were. *)
Theorem register_creates_account (salt : string) (req : request) (st : db) :
  status (post_register salt req st).1 = 201 ->
  exists u hashed,
    users (post_register salt req st).2 = (users st ++ [u])%list
    /\ u_id u = users_id_seq st + 1
    /\ pg_varchar100 (field (req_body req) "name") = Resolves (u_name u)
    /\ pg_varchar100 (field (req_body req) "email") = Resolves (u_email u)
    /\ bcrypt_hash (field (req_body req) "password") 10 salt = Resolves hashed
    /\ u_password u = Some hashed
    /\ email_taken st (u_email u) = false
    /\ cars (post_register salt req st).2 = cars st
    /\ bookings (post_register salt req st).2 = bookings st.
Proof.
  pose proof (post_register_bookings salt req st) as Hb.
  destruct (post_register_tables salt req st) as [_ Hc].
  revert Hb Hc. unfold post_register.
  destruct (negb (truthy _) || negb (truthy _) || negb (truthy _)); [discriminate|].
  destruct (bcrypt_hash _ _ _) as [hashed|]; [|discriminate].
  destruct (insert_user st _ _ _) as [[[]|] st'] eqn:Hins; simpl; [|discriminate].
  intros Hb Hc _.
  apply insert_user_resolves in Hins as (u & Hu & Hid & Hn & He & Hp & Ht).
  exists u, hashed. repeat split; assumption.
Qed.

Lemma first_of_filter {A} (f : A -> bool) (l : list A) (x : A) :
  List.filter f l !! 0%nat = Some x -> In x l /\ f x = true.
Proof.
  intros E. apply filter_In. apply list_elem_of_In.
  apply list_elem_of_lookup. exists 0%nat. exact E.
Qed.

(** X12.  POST /login answers 200 only for a password that verifies: when
    the status is 200 there is a user of the table whose stored email is
    the email sent and for whose stored hash [bcrypt.compare] resolved to
    true on the password sent, and the body is the token signed for that
    user's id and email at the time of the request. *)
Theorem login_only_when_verified (now : Z) (req : request) (st : db) :
  status (post_login JWT_SECRET now req st).1 = 200 ->
  exists U,
    In U (users st)
    /\ u_email U = prepareValue (field (req_body req) "email")
    /\ bcrypt_compare (field (req_body req) "password") (u_password U) = Resolves true
    /\ (post_login JWT_SECRET now req st).1
       = res_json (TokenBody (jwt_sign (u_id U) (u_email U) JWT_SECRET now)).
Proof.
  unfold post_login.
  destruct (negb (truthy _) || negb (truthy _)); [discriminate|].
  unfold select_user_by_email.
  destruct (prepareValue (field (req_body req) "email")) as [s|] eqn:Hs; [|discriminate].
  destruct (List.filter _ (users st) !! 0%nat) as [U|] eqn:HU; [|discriminate].
  apply first_of_filter in HU as [HU He].
  destruct (bcrypt_compare _ _) as [[|]|] eqn:Hcmp; simpl; try discriminate.
  intros _. exists U. repeat split; try assumption.
  destruct (u_email U) as [e|]; simpl in He; [|discriminate].
  apply String.eqb_eq in He. congruence.
Qed.

(** X13.  Register, then log in.  In a database the application has
    built, after a POST /register answered 201 for an email sent as a
    string of at most 100 characters, a POST /login carrying the same email
    and password answers 200 with a token for the new user, provided
    [bcrypt.compare] accepts the password against the hash [bcrypt.hash]
    gave for it. *)
Theorem register_then_login (salt : string) (now : Z) (reg login : request)
    (st : db) (e hashed : string) :
  db_ok st ->
  status (post_register salt reg st).1 = 201 ->
  field (req_body reg) "email" = JStr e -> (String.length e <= 100)%nat ->
  field (req_body login) "email" = JStr e ->
  field (req_body login) "password" = field (req_body reg) "password" ->
  bcrypt_hash (field (req_body reg) "password") 10 salt = Resolves hashed ->
  bcrypt_compare (field (req_body reg) "password") (Some hashed) = Resolves true ->
  post_login JWT_SECRET now login (post_register salt reg st).2
    = (res_json (TokenBody (jwt_sign (users_id_seq st + 1) (Some e) JWT_SECRET now)),
       (post_register salt reg st).2).
Proof.
  intros Hok Hs Hemail Hlen Hlogin Hpw Hhash Hcmp.
  pose proof (post_register_ok salt reg st Hok) as Hok'.
  assert (Htruthy : truthy (field (req_body reg) "email") = true
                    /\ truthy (field (req_body reg) "password") = true).
  { revert Hs. unfold post_register.
    destruct (truthy (field (req_body reg) "name")),
             (truthy (field (req_body reg) "email")),
             (truthy (field (req_body reg) "password")); simpl; try discriminate. auto. }
  destruct Htruthy as [Hte Htp].
  assert (Hnew : exists u, users (post_register salt reg st).2 = (users st ++ [u])%list
                           /\ u_id u = users_id_seq st + 1
                           /\ pg_varchar100 (field (req_body reg) "email")
                              = Resolves (u_email u)
                           /\ u_password u = Some hashed).
  { revert Hs. unfold post_register.
    destruct (negb (truthy _) || negb (truthy _) || negb (truthy _)); [discriminate|].
    rewrite Hhash.
    destruct (insert_user st _ _ _) as [[[]|] st1] eqn:Hins; simpl; [|discriminate].
    intros _. apply insert_user_resolves in Hins as (u & Hu & Hid & _ & He & Hp & _).
    exists u. auto. }
  destruct Hnew as (u & Hu & Hid & He & Hp).
  rewrite Hemail in He. unfold pg_varchar100 in He. simpl in He.
  rewrite varchar_assign_short in He by exact Hlen. simpl in He.
  inversion He as [He']; clear He.
  set (st' := (post_register salt reg st).2) in *.
  unfold post_login. rewrite Hlogin, Hpw. rewrite Hemail in Hte. rewrite Hte, Htp. simpl.
  destruct Hok' as [_ _ _ _ Huniq _].
  rewrite (filter_email_unique (users st') u e Huniq).
  - simpl. rewrite Hp, Hcmp. simpl. rewrite Hid, <- He'. reflexivity.
  - rewrite Hu. apply in_or_app. right. left. reflexivity.
  - symmetry. exact He'.
Qed.

(** X14.  The presence checks, both ways.  POST /register, POST /login and
    POST /cars answer 400 exactly when one of their required fields is
    absent or falsy (undefined, null, false, the number 0 or the empty
    string), and so does POST /bookings for a caller past the gate. *)
Theorem bad_request_iff_falsy (now : Z) (salt : string) (req : request) (st : db) :
  let present k := truthy (field (req_body req) k) in
  (status (post_register salt req st).1 = 400
     <-> present "name" && present "email" && present "password" = false)
  /\ (status (post_login JWT_SECRET now req st).1 = 400
     <-> present "email" && present "password" = false)
  /\ (status (post_cars req st).1 = 400
     <-> present "name" && present "details" && present "price" = false)
  /\ (forall caller, authenticateToken JWT_SECRET now req = inr caller ->
      (status (post_bookings JWT_SECRET now req st).1 = 400
         <-> present "car_id" && present "travel_date" = false)).
Proof.
  simpl. split; [|split; [|split]].
  - unfold post_register.
    destruct (truthy _), (truthy _), (truthy _); simpl;
      try (split; [reflexivity | reflexivity]).
    destruct (bcrypt_hash _ _ _); [|split; discriminate].
    destruct (insert_user st _ _ _) as [[[]|] st']; split; discriminate.
  - unfold post_login.
    destruct (truthy _), (truthy _); simpl; try (split; [reflexivity | reflexivity]).
    destruct (select_user_by_email st _) as [rows|]; [|split; discriminate].
    destruct (rows !! 0%nat); [|split; discriminate].
    destruct (bcrypt_compare _ _) as [[|]|]; split; discriminate.
  - unfold post_cars.
    destruct (truthy _), (truthy _), (truthy _); simpl;
      try (split; [reflexivity | reflexivity]).
    destruct (insert_car st _ _ _) as [[[]|] st']; split; discriminate.
  - intros caller Hauth. unfold post_bookings, protected. rewrite Hauth.
    unfold book_handler.
    destruct (truthy _), (truthy _); simpl; try (split; [reflexivity | reflexivity]).
    destruct (select_car_by_id st _) as [[|c rows]|]; try (split; discriminate).
    destruct (insert_booking st _ _ _) as [[[]|] st']; split; discriminate.
Qed.
End Registration.

(** ** What holds of every database the application builds *)

Section Reachable.
Context `{PgInput} `{Jose} `{Bcrypt}.
Variable JWT_SECRET : string.

Lemma email_determines_row (l : list user) (u1 u2 : user) (e : string) :
  NoDup (omap u_email l) -> In u1 l -> In u2 l ->
  u_email u1 = Some e -> u_email u2 = Some e -> u1 = u2.
Proof.
  intros Hnd H1' H2' E1 E2.
  pose proof (filter_email_unique l u1 e Hnd H1' E1) as F1.
  pose proof (filter_email_unique l u2 e Hnd H2' E2) as F2.
  rewrite F1 in F2. inversion F2. reflexivity.
Qed.

(** X15.  The UNIQUE e-mail and the keys, over time: in the database
    reached from the empty one by any sequence of requests, two users with
    the same email are the same row, and so are two users with the same
    id. *)
Theorem accounts_stay_unique (trace : list (route * world * request)) (u1 u2 : user) :
  In u1 (users (run JWT_SECRET trace empty_db)) ->
  In u2 (users (run JWT_SECRET trace empty_db)) ->
  (forall e, u_email u1 = Some e -> u_email u2 = Some e -> u1 = u2)
  /\ (u_id u1 = u_id u2 -> u1 = u2).
Proof.
  intros H1' H2'.
  destruct (run_ok JWT_SECRET trace empty_db empty_db_ok)
    as [(_ & _ & Hnd) _ _ _ Huniq _].
  split.
  - intros e E1 E2. eapply email_determines_row; eassumption.
  - intros E. eapply (key_determines_row u_id); eassumption.
Qed.

Lemma truthy_prepared v : truthy v = true -> exists s, prepareValue v = Some s.
Proof. destruct v; simpl; try discriminate; eauto. Qed.

Lemma gate_statuses now req res :
  authenticateToken JWT_SECRET now req = inl res -> status res = 401 \/ status res = 403.
Proof.
  unfold authenticateToken. destruct (token_missing _).
  - intros E; inversion E; auto.
  - destruct (jwt_verify _ _ _); intros E; inversion E; auto.
Qed.

Lemma truthy_date v d : truthy v = true -> pg_date v = Resolves d -> exists n, d = Some n.
Proof.
  intros Ht. unfold pg_date. destruct (truthy_prepared v Ht) as (s & ->).
  destruct (date_in s); simpl; intros E; inversion E; eauto.
Qed.

(** X16.  POST /bookings answers 201 only for a car that exists: when the
    status is 201 the caller passed the gate and is a user of the table,
    the car_id sent designates a car of the table, and the bookings table
    has gained exactly one row, under the next id of the sequence, holding
    the caller's id, that car's id and the date the server read from
    travel_date. *)
Theorem booking_needs_car (now : Z) (req : request) (st : db) :
  status (post_bookings JWT_SECRET now req st).1 = 201 ->
  exists caller c d,
    authenticateToken JWT_SECRET now req = inr caller
    /\ has_user st (jwt_id caller) = true
    /\ designates_car st (field (req_body req) "car_id") c
    /\ pg_date (field (req_body req) "travel_date") = Resolves (Some d)
    /\ bookings (post_bookings JWT_SECRET now req st).2 =
         (bookings st ++ [{| b_id := bookings_id_seq st + 1;
                             b_user_id := Some (jwt_id caller);
                             b_car_id := Some (c_id c);
                             b_travel_date := Some d |}])%list.
Proof.
  unfold post_bookings, protected.
  destruct (authenticateToken _ _ _) as [res|caller] eqn:Hauth;
    [apply gate_statuses in Hauth; simpl; lia|].
  unfold book_handler.
  destruct (truthy (field (req_body req) "car_id")) eqn:Hcar; [|discriminate].
  destruct (truthy (field (req_body req) "travel_date")) eqn:Hdate; [|discriminate].
  simpl. unfold select_car_by_id.
  destruct (pg_int4 (field (req_body req) "car_id")) as [[k|]|] eqn:Hk;
    simpl; try discriminate.
  destruct (List.filter _ (cars st)) as [|c rows] eqn:Hf; [discriminate|].
  assert (Hc : In c (cars st) /\ (c_id c =? k) = true).
  { apply (filter_In (fun c' => c_id c' =? k)). rewrite Hf. left. reflexivity. }
  destruct Hc as [Hc Hck]. apply Z.eqb_eq in Hck. subst k.
  unfold insert_booking. rewrite Hk. simpl.
  destruct (in_int4 (jwt_id caller)); simpl; [|discriminate].
  destruct (pg_date (field (req_body req) "travel_date")) as [d|] eqn:Hd;
    simpl; [|discriminate].
  destruct (truthy_date _ d Hdate Hd) as (n & ->).
  destruct (nextval (bookings_id_seq st)) as [i|] eqn:Hi; [|discriminate].
  apply nextval_resolves in Hi as [-> _].
  destruct (has_booking st _); simpl; [discriminate|].
  destruct (has_user st (jwt_id caller)) eqn:Hu; simpl; [|discriminate].
  destruct (has_car st (c_id c)); simpl; [|discriminate].
  intros _. exists caller, c, n. repeat split; assumption || reflexivity.
Qed.

Lemma truthy_int4 v k : truthy v = true -> pg_int4 v = Resolves k -> exists n, k = Some n.
Proof.
  destruct v; simpl; intros Ht E; try discriminate.
  - destruct (in_int4 n); inversion E; eauto.
  - destruct (int4in s); simpl in E; inversion E; eauto.
Qed.

Lemma app_bookings_filled r w req st :
  let st' := (app JWT_SECRET r w req st).2 in
  bookings st' = bookings st
  \/ exists b u c d,
       bookings st' = (bookings st ++ [b])%list
       /\ b_user_id b = Some u /\ b_car_id b = Some c /\ b_travel_date b = Some d.
Proof.
  simpl. destruct (app_bookings JWT_SECRET r w req st) as [E|(-> & _)]; [left; exact E|].
  simpl. unfold post_bookings, protected.
  destruct (authenticateToken _ _ _) as [res|caller]; [left; reflexivity|].
  unfold book_handler.
  destruct (truthy (field (req_body req) "car_id")) eqn:Hcar; [|left; reflexivity].
  destruct (truthy (field (req_body req) "travel_date")) eqn:Hdate; [|left; reflexivity].
  simpl. destruct (select_car_by_id st _) as [[|c rows]|]; try (left; reflexivity).
  destruct (insert_booking st _ _ _) as [o st'] eqn:Hins.
  apply insert_booking_rows in Hins as [[-> E]|(b & -> & E & Hu & Hc & Hd & _)];
    [left; exact E|].
  right. apply pg_int4_num in Hu.
  destruct (truthy_int4 _ _ Hcar Hc) as (n & En).
  destruct (truthy_date _ _ Hdate Hd) as (d & Ed).
  exists b, (jwt_id caller), n, d. auto.
Qed.

(** X17.  Referential consistency, over time: in the database reached
    from the empty one by any sequence of requests, every booking has a
    user_id, a car_id and a travel_date (none is NULL), its user_id is the
    id of a user of the users table and its car_id the id of a car of the
    cars table. *)
Theorem bookings_stay_consistent (trace : list (route * world * request)) (b : booking) :
  let st := run JWT_SECRET trace empty_db in
  In b (bookings st) ->
  exists u c d,
    In u (users st) /\ In c (cars st)
    /\ b_user_id b = Some (u_id u)
    /\ b_car_id b = Some (c_id c)
    /\ b_travel_date b = Some d.
Proof.
  simpl. intros Hb.
  assert (Hfilled : forall st,
             Forall (fun b => is_Some (b_user_id b) /\ is_Some (b_car_id b)
                              /\ is_Some (b_travel_date b)) (bookings st) ->
             Forall (fun b => is_Some (b_user_id b) /\ is_Some (b_car_id b)
                              /\ is_Some (b_travel_date b))
                    (bookings (run JWT_SECRET trace st))).
  { clear Hb. induction trace as [|[[r w] req] rest IH]; intros st Hst; [exact Hst|].
    change (run JWT_SECRET ((r, w, req) :: rest) st)
      with (run JWT_SECRET rest (app JWT_SECRET r w req st).2).
    apply IH.
    destruct (app_bookings_filled r w req st) as [->|(b' & u & c & d & -> & Eu & Ec & Ed)];
      [exact Hst|].
    apply Forall_app. split; [exact Hst|]. constructor; [|constructor].
    rewrite Eu, Ec, Ed. eauto. }
  specialize (Hfilled empty_db (List.Forall_nil _)).
  rewrite Forall_forall in Hfilled.
  destruct (Hfilled b) as ([u Eu] & [c Ec] & [d Ed]); [apply list_elem_of_In; exact Hb|].
  destruct (run_ok JWT_SECRET trace empty_db empty_db_ok) as [_ _ _ _ _ Hrefs].
  rewrite Forall_forall in Hrefs.
  destruct (Hrefs b) as [Hu Hc]; [apply list_elem_of_In; exact Hb|].
  rewrite Eu in Hu. rewrite Ec in Hc. simpl in Hu, Hc.
  apply existsb_key_In in Hu as (u' & Hu' & <-).
  apply existsb_key_In in Hc as (c' & Hc' & <-).
  exists u', c', d. auto.
Qed.
End Reachable.

(** ** More on the gate *)

Section Header.
Context `{PgInput} `{Jose} `{Bcrypt}.
Variable JWT_SECRET : string.

Lemma split_one_piece s : no_space s = true -> split " " s = [s].
Proof.
  induction s as [|a s IH]; simpl; [reflexivity|].
  destruct (Ascii.eqb a " "%char); simpl; [discriminate|].
  intros Hs. rewrite (IH Hs). reflexivity.
Qed.

Lemma split_scheme scheme rest :
  no_space scheme = true ->
  split " " (scheme ++ String " "%char rest) = scheme :: split " " rest.
Proof.
  induction scheme as [|a s IH]; simpl; [reflexivity|].
  destruct (Ascii.eqb a " "%char); simpl; [discriminate|].
  intros Hs. rewrite (IH Hs). reflexivity.
Qed.

Lemma append_not_empty scheme rest : scheme ++ String " "%char rest <> "".
Proof. destruct scheme; discriminate. Qed.

(** X18.  The gate reads the second space-separated piece of the header
    and never looks at the first: for every scheme word and every token
    without spaces, a header made of the scheme, one space and the token is
    treated exactly as the header "Bearer " followed by that token. *)
Theorem scheme_is_not_checked (now : Z) (req : request) (scheme token : string) :
  no_space scheme = true -> no_space token = true ->
  bearer_token (Some (scheme ++ String " "%char token)) = Some token
  /\ authenticateToken JWT_SECRET now
       (with_authorization (scheme ++ String " "%char token) req)
     = authenticateToken JWT_SECRET now
         (with_authorization ("Bearer" ++ String " "%char token) req).
Proof.
  intros Hs Ht.
  assert (Hb : forall sch, no_space sch = true ->
                 bearer_token (Some (sch ++ String " "%char token)) = Some token).
  { intros sch Hsch. unfold bearer_token.
    destruct (String.eqb_spec (sch ++ String " "%char token) "") as [E|_];
      [destruct (append_not_empty _ _ E)|].
    rewrite (split_scheme sch token Hsch), (split_one_piece token Ht). reflexivity. }
  split; [apply Hb, Hs|].
  unfold authenticateToken, with_authorization. simpl authorization.
  rewrite (Hb scheme Hs), (Hb "Bearer" eq_refl). reflexivity.
Qed.

(** X19.  A header that holds no space carries no token for the gate, even
    when it is itself a valid token: on the three protected routes the
    answer is 401 "Token missing" and the database is untouched. *)
Theorem bare_header_is_401 (now : Z) (req : request) (st : db) (h : string) :
  no_space h = true ->
  let r := with_authorization h req in
  get_bookings JWT_SECRET now r st = (res_status 401 (ErrorBody "Token missing"), st)
  /\ get_booking JWT_SECRET now r st = (res_status 401 (ErrorBody "Token missing"), st)
  /\ post_bookings JWT_SECRET now r st = (res_status 401 (ErrorBody "Token missing"), st).
Proof.
  intros Hh. simpl.
  assert (Hm : token_missing (bearer_token (Some h)) = true).
  { unfold bearer_token. destruct (String.eqb_spec h "") as [->|_]; [reflexivity|].
    rewrite (split_one_piece h Hh). reflexivity. }
  unfold get_bookings, get_booking, post_bookings, protected, authenticateToken.
  simpl authorization. rewrite Hm. auto.
Qed.
End Header.

(** ** Failed requests store no row *)

Section Failures.
Context `{PgInput} `{Jose} `{Bcrypt}.
Variable JWT_SECRET : string.

Lemma insert_car_rejects st name details price st' :
  insert_car st name details price = (Rejects, st') -> cars st' = cars st.
Proof.
  unfold insert_car.
  destruct (pg_numeric price); simpl; [|intros E; inversion E; reflexivity].
  destruct (pg_varchar100 name); simpl; [|intros E; inversion E; reflexivity].
  destruct (nextval (cars_id_seq st)) as [k|]; [|intros E; inversion E; reflexivity].
  destruct (has_car st k); intros E; inversion E; reflexivity.
Qed.

(** X20.  Only a request answered 201 stores anything: on every route, a
    request answered with any other status (200, 400, 401, 403, 404 or
    500) leaves the three tables with exactly the rows they had. *)
Theorem only_created_adds_rows (r : route) (w : world) (req : request) (st : db) :
  status (app JWT_SECRET r w req st).1 <> 201 ->
  users (app JWT_SECRET r w req st).2 = users st
  /\ cars (app JWT_SECRET r w req st).2 = cars st
  /\ bookings (app JWT_SECRET r w req st).2 = bookings st.
Proof.
  intros Hs.
  assert (Hread : (app JWT_SECRET r w req st).2 = st ->
                  users (app JWT_SECRET r w req st).2 = users st
                  /\ cars (app JWT_SECRET r w req st).2 = cars st
                  /\ bookings (app JWT_SECRET r w req st).2 = bookings st)
    by (intros ->; auto).
  destruct r; simpl in *;
    try (apply Hread; simpl;
         first [apply post_login_state | apply get_car_state | apply get_bookings_state
               | apply get_booking_state | reflexivity]).
  - destruct (post_register_tables (entropy w) req st) as [_ Hc].
    pose proof (post_register_bookings (entropy w) req st) as Hb.
    split; [|split; assumption]. clear Hc Hb Hread. revert Hs. unfold post_register.
    destruct (negb (truthy _) || negb (truthy _) || negb (truthy _)); [reflexivity|].
    destruct (bcrypt_hash _ _ _) as [h|]; [|reflexivity].
    destruct (insert_user st _ _ _) as [[[]|] st'] eqn:Hins; simpl.
    + intros Hs. exfalso. apply Hs. reflexivity.
    + intros _. eapply insert_user_rejects, Hins.
  - destruct (post_cars_tables req st) as [Hu _].
    pose proof (post_cars_bookings req st) as Hb.
    split; [assumption|split; [|assumption]]. clear Hu Hb Hread. revert Hs. unfold post_cars.
    destruct (negb (truthy _) || negb (truthy _) || negb (truthy _)); [reflexivity|].
    destruct (insert_car st _ _ _) as [[[]|] st'] eqn:Hins; simpl.
    + intros Hs. exfalso. apply Hs. reflexivity.
    + intros _. eapply insert_car_rejects, Hins.
  - clear Hread. revert Hs. unfold post_bookings, protected.
    destruct (authenticateToken _ _ _) as [res|caller]; [auto|].
    destruct (book_handler_tables caller req st) as [Hu Hc]. intros Hs.
    split; [assumption|split; [assumption|]]. clear Hu Hc. revert Hs. unfold book_handler.
    destruct (negb (truthy _) || negb (truthy _)); [reflexivity|].
    destruct (select_car_by_id st _) as [[|c rows]|]; try reflexivity.
    destruct (insert_booking st _ _ _) as [[[]|] st'] eqn:Hins; simpl.
    + intros Hs. exfalso. apply Hs. reflexivity.
    + intros _. apply insert_booking_rows in Hins as [[_ E]|(b & E & _)];
        [exact E | discriminate].
Qed.
End Failures.

(** ** Further properties on the sample instance *)

Module Walkthrough.
Import Sample.

Lemma get_car_found_witness :
  get_car get_car_1 db1 = (res_json (CarBody civic_row), db1).
Proof.
  apply (get_car_found get_car_1 db1 civic_row Scenarios.db1_ok).
  split; [vm_compute; left; reflexivity | vm_compute; reflexivity].
Defined.

Lemma no_car_9 : no_such_car db1 (JStr "9").
Proof.
  intros c [Hin E]. vm_compute in Hin. destruct Hin as [<-|[]].
  vm_compute in E. discriminate.
Qed.

Lemma no_car_abc : no_such_car db1 (JStr "abc").
Proof. intros c [_ E]. vm_compute in E. discriminate. Qed.

Lemma get_car_absent_witness :
  get_car get_car_9 db1 = (res_status 404 (ErrorBody "Car not found"), db1)
  /\ get_car get_car_abc db1 = (res_status 500 (ErrorBody "Error fetching car"), db1).
Proof.
  split.
  - exact (get_car_absent get_car_9 db1 no_car_9).
  - exact (get_car_absent get_car_abc db1 no_car_abc).
Defined.


Lemma get_bookings_only_own_witness :
  (get_bookings secret 2200 ana_lists db2).2 = db2
  /\ Sorted (fun a b => br_id b <= br_id a) [ana_row_1]
  /\ (forall r, In r [ana_row_1] ->
        exists b c,
          In b (bookings db2) /\ In c (cars db2)
          /\ b_user_id b = Some (jwt_id ana_claims)
          /\ b_car_id b = Some (c_id c)
          /\ r = {| br_id := b_id b; br_travel_date := b_travel_date b;
                    br_car_name := c_name c; br_car_details := c_details c;
                    br_car_price := c_price c |}).
Proof.
  apply (get_bookings_only_own secret 2200 ana_lists db2 ana_claims [ana_row_1]);
    vm_compute; reflexivity.
Defined.


Lemma own_booking_shown_witness :
  get_booking secret 2200 ana_reads_1 db2 =
    (res_json (BookingBody {| bd_row := ana_row_1; bd_user_name := Some "Ana";
                              bd_user_email := Some "ana@x.com" |}), db2).
Proof.
  apply (own_booking_shown secret 2200 ana_reads_1 db2 ana_claims ana_booking
           civic_row ana_row Scenarios.db2_ok).
  - vm_compute. reflexivity.
  - vm_compute. reflexivity.
  - vm_compute. left. reflexivity.
  - vm_compute. left. reflexivity.
  - vm_compute. left. reflexivity.
  - reflexivity.
  - reflexivity.
  - reflexivity.
Defined.

Lemma client_errors_persist_nothing_witness :
  (app secret POST_bookings (at_time 2200) absent_car db2).2 = db2.
Proof.
  apply (client_errors_persist_nothing secret POST_bookings (at_time 2200) absent_car db2).
  assert (E : status (app secret POST_bookings (at_time 2200) absent_car db2).1 = 404)
    by (vm_compute; reflexivity).
  rewrite E. lia.
Defined.

Lemma reads_change_nothing_witness :
  (app secret POST_login (at_time 2000) ana_logs_in db1).2 = db1.
Proof.
  apply (reads_change_nothing secret POST_login (at_time 2000) ana_logs_in db1);
    discriminate.
Defined.

Lemma register_creates_account_witness :
  exists u hashed,
    users (post_register "salt" eve_registers db1).2 = [ana_row; bob_row; u]
    /\ u_id u = 3
    /\ bcrypt_hash (JStr "pw3") 10 "salt" = Resolves hashed
    /\ u_password u = Some hashed.
Proof.
  destruct (register_creates_account "salt" eve_registers db1)
    as (u & hashed & Hu & Hid & _ & _ & Hh & Hp & _); [vm_compute; reflexivity|].
  exists u, hashed. repeat split; assumption.
Defined.

Lemma login_only_when_verified_witness :
  exists U,
    In U (users db1)
    /\ u_email U = Some "ana@x.com"
    /\ bcrypt_compare (JStr "secret") (u_password U) = Resolves true.
Proof.
  destruct (login_only_when_verified secret 2000 ana_logs_in db1)
    as (U & HU & He & Hc & _); [vm_compute; reflexivity|].
  exists U. repeat split; assumption.
Defined.

Lemma register_then_login_witness :
  post_login secret 3000 eve_returns (post_register "salt" eve_registers db1).2
    = (res_json (TokenBody (jwt_sign 3 (Some "eve@x.com") secret 3000)),
       (post_register "salt" eve_registers db1).2).
Proof.
  apply (register_then_login secret "salt" 3000 eve_registers eve_returns db1
           "eve@x.com" "10$salt$pw3" Scenarios.db1_ok).
  - vm_compute. reflexivity.
  - reflexivity.
  - vm_compute. lia.
  - reflexivity.
  - reflexivity.
  - vm_compute. reflexivity.
  - vm_compute. reflexivity.
Defined.

Lemma bad_request_iff_falsy_witness :
  status (post_register "salt" no_password db1).1 = 400
  /\ status (post_bookings secret 2200 car_zero db1).1 = 400
  /\ status (post_cars add_jeep db1).1 <> 400.
Proof.
  destruct (bad_request_iff_falsy secret 2200 "salt" no_password db1) as (Hreg & _).
  destruct (bad_request_iff_falsy secret 2200 "salt" car_zero db1) as (_ & _ & _ & Hbook).
  destruct (bad_request_iff_falsy secret 2200 "salt" add_jeep db1) as (_ & _ & Hcars & _).
  split; [|split].
  - apply Hreg. reflexivity.
  - apply (Hbook ana_claims); [vm_compute; reflexivity | reflexivity].
  - intros E. apply Hcars in E. discriminate E.
Defined.

Lemma accounts_stay_unique_witness :
  (forall e, u_email ana_row = Some e -> u_email ana_row = Some e -> ana_row = ana_row)
  /\ (u_id ana_row = u_id ana_row -> ana_row = ana_row).
Proof.
  apply (accounts_stay_unique secret history ana_row ana_row);
    vm_compute; left; reflexivity.
Defined.

Lemma booking_needs_car_witness :
  exists caller c d,
    authenticateToken secret 2100 ana_books = inr caller
    /\ has_user db1 (jwt_id caller) = true
    /\ designates_car db1 (field (req_body ana_books) "car_id") c
    /\ pg_date (field (req_body ana_books) "travel_date") = Resolves (Some d)
    /\ bookings (post_bookings secret 2100 ana_books db1).2 =
         (bookings db1 ++ [{| b_id := bookings_id_seq db1 + 1;
                              b_user_id := Some (jwt_id caller);
                              b_car_id := Some (c_id c);
                              b_travel_date := Some d |}])%list.
Proof.
  apply (booking_needs_car secret 2100 ana_books db1). vm_compute. reflexivity.
Defined.

Lemma bookings_stay_consistent_witness :
  exists u c d,
    In u (users (run secret history empty_db)) /\ In c (cars (run secret history empty_db))
    /\ b_user_id ana_booking = Some (u_id u)
    /\ b_car_id ana_booking = Some (c_id c)
    /\ b_travel_date ana_booking = Some d.
Proof.
  apply (bookings_stay_consistent secret history ana_booking).
  vm_compute. left. reflexivity.
Defined.

Lemma scheme_is_not_checked_witness :
  bearer_token (Some ("Token" ++ String " "%char ana_token)) = Some ana_token
  /\ authenticateToken secret 2200
       (with_authorization ("Token" ++ String " "%char ana_token) no_header)
     = authenticateToken secret 2200
         (with_authorization ("Bearer" ++ String " "%char ana_token) no_header).
Proof.
  apply (scheme_is_not_checked secret 2200 no_header "Token" ana_token);
    vm_compute; reflexivity.
Defined.

Lemma bare_header_is_401_witness :
  get_bookings secret 2200 (with_authorization ana_token no_header) db2
    = (res_status 401 (ErrorBody "Token missing"), db2)
  /\ get_booking secret 2200 (with_authorization ana_token no_header) db2
    = (res_status 401 (ErrorBody "Token missing"), db2)
  /\ post_bookings secret 2200 (with_authorization ana_token no_header) db2
    = (res_status 401 (ErrorBody "Token missing"), db2).
Proof.
  apply (bare_header_is_401 secret 2200 no_header db2 ana_token).
  vm_compute. reflexivity.
Defined.

Lemma only_created_adds_rows_witness :
  users (app secret POST_register (at_time 3000) ana_again db1).2 = users db1
  /\ cars (app secret POST_register (at_time 3000) ana_again db1).2 = cars db1
  /\ bookings (app secret POST_register (at_time 3000) ana_again db1).2 = bookings db1.
Proof.
  apply (only_created_adds_rows secret POST_register (at_time 3000) ana_again db1).
  vm_compute. discriminate.
Defined.
End Walkthrough.
